(** * Voice bridge of the meeting companion: model and properties

    Shallow embedding of [backend/services/voice_service.py]
    ([VoiceService.handle_voice_stream], its two provider callbacks, the
    consumer task and [process_deepgram_message]).

    Conventions.
    - A Python [str] is the list of its Unicode code points ([pystr]).
    - A coroutine is a function from the session state to an outcome and a
      new state; the outcome is a return value, a raised exception, or
      [Suspended] when the coroutine waits at an [await] whose result has
      not arrived yet.
    - Every call that acts on a collaborator (the provider connection, the
      client socket's send side, the queue, the logger, the task API) is
      recorded, in program order, in the [calls] field of the state; the
      results of the successive [websocket.receive()] are the input. *)

From Stdlib Require Import ZArith NArith QArith String Ascii List Lia.
From stdpp Require Import base option list gmap.
Import ListNotations.

Local Open Scope N_scope.
Local Open Scope list_scope.

(* ===================================================================== *)
(** ** Python values                                                      *)
(* ===================================================================== *)

Module Py.

(** A [str]: the sequence of its code points. *)
Definition pystr : Type := list N.

(** The code points of a source literal (all below 256). *)
Definition str (s : string) : pystr := map N_of_ascii (list_ascii_of_string s).

Fixpoint pystr_eqb (a b : pystr) : bool :=
  match a, b with
  | [], [] => true
  | x :: a', y :: b' => (x =? y) && pystr_eqb a' b'
  | _, _ => false
  end.

(** [str.isspace] on one character (CPython's [_PyUnicode_IsWhitespace]). *)
Definition isspace (c : N) : bool :=
  ((9 <=? c) && (c <=? 13)) || ((28 <=? c) && (c <=? 32))
  || (c =? 133) || (c =? 160) || (c =? 5760)
  || ((8192 <=? c) && (c <=? 8202))
  || (c =? 8232) || (c =? 8233) || (c =? 8239) || (c =? 8287) || (c =? 12288).

Fixpoint lstrip (s : pystr) : pystr :=
  match s with
  | c :: r => if isspace c then lstrip r else s
  | [] => []
  end.

Definition rstrip (s : pystr) : pystr := rev (lstrip (rev s)).

(** [s.strip()] *)
Definition strip (s : pystr) : pystr := rstrip (lstrip s).

(** The values that travel through the bridge as attributes of provider
    objects and as fields of outbound messages. *)
Inductive pyval :=
| VNone
| VBool (b : bool)
| VInt (z : Z)
| VFloat (q : Q)
| VStr (s : pystr).

(** Truth value of an object in a condition. *)
Definition truthy (v : pyval) : bool :=
  match v with
  | VNone => false
  | VBool b => b
  | VInt z => negb (z =? 0)%Z
  | VFloat q => negb (Qeq_bool q 0)
  | VStr s => match s with [] => false | _ => true end
  end.

(** [v == "literal"] *)
Definition eq_str (v : pyval) (lit : string) : bool :=
  match v with
  | VStr s => pystr_eqb s (str lit)
  | _ => false
  end.

(** A dict literal with literal keys, in insertion order. *)
Definition pydict : Type := list (string * pyval).

Fixpoint dict_get (d : pydict) (k : string) : option pyval :=
  match d with
  | [] => None
  | (k', v) :: r => if String.eqb k k' then Some v else dict_get r k
  end.

(** The exceptions that can reach the handler. *)
Inductive exn :=
| ConnectionClosedOK        (* websockets.exceptions.ConnectionClosedOK *)
| CancelledError            (* asyncio.CancelledError *)
| JSONDecodeError
| AttributeError
| TypeError
| RuntimeError
| PyException (msg : string).   (* raise Exception("...") *)

(** [isinstance(e, Exception)]: [CancelledError] derives from
    [BaseException] only. *)
Definition is_Exception (e : exn) : bool :=
  match e with
  | CancelledError => false
  | _ => true
  end.

Definition is_ConnectionClosedOK (e : exn) : bool :=
  match e with
  | ConnectionClosedOK => true
  | _ => false
  end.

(** Result of a call that may raise. *)
Inductive res (A : Type) :=
| Ok (a : A)
| Err (e : exn).
Arguments Ok {A} a.
Arguments Err {A} e.

End Py.
Import Py.

(* ===================================================================== *)
(** ** JSON documents and a reference decoder                             *)
(* ===================================================================== *)

Module Json.

#[local] Set Warnings "-register-all".

(** What [json.loads] builds.  An object keeps its members in document
    order; [get] reads it the way the resulting dict does. *)
Inductive value :=
| Null
| Bool (b : bool)
| Int (z : Z)
| Float (literal : pystr)
| Str (s : pystr)
| Array (items : list value)
| Object (members : list (pystr * value)).

(** [d.get(k)] on the dict built from [members]: a repeated key keeps its
    last value. *)
Fixpoint get (members : list (pystr * value)) (k : pystr) : option value :=
  match members with
  | [] => None
  | (k', v) :: r =>
      match get r k with
      | Some v' => Some v'
      | None => if pystr_eqb k k' then Some v else None
      end
  end.

(** [v == "literal"] for a decoded value. *)
Definition eq_str (v : option value) (lit : string) : bool :=
  match v with
  | Some (Str s) => pystr_eqb s (str lit)
  | _ => false
  end.

Definition ch (a : ascii) : N := N_of_ascii a.

Definition DQUOTE : N := 34.
Definition BACKSLASH : N := 92.

Definition is_ws (c : N) : bool :=
  (c =? 32) || (c =? 9) || (c =? 10) || (c =? 13).

Fixpoint skip_ws (s : pystr) : pystr :=
  match s with
  | c :: r => if is_ws c then skip_ws r else s
  | [] => []
  end.

Definition is_digit (c : N) : bool := (48 <=? c) && (c <=? 57).

Definition hex_val (c : N) : option N :=
  if is_digit c then Some (c - 48)
  else if (97 <=? c) && (c <=? 102) then Some (c - 87)
  else if (65 <=? c) && (c <=? 70) then Some (c - 55)
  else None.

(** Four hexadecimal digits of a [\uXXXX] escape. *)
Definition hex4 (s : pystr) : option (N * pystr) :=
  match s with
  | a :: b :: c :: d :: r =>
      match hex_val a, hex_val b, hex_val c, hex_val d with
      | Some x, Some y, Some z, Some w => Some (((x * 16 + y) * 16 + z) * 16 + w, r)
      | _, _, _, _ => None
      end
  | _ => None
  end.

Definition simple_escape (c : N) : option N :=
  if c =? DQUOTE then Some DQUOTE
  else if c =? BACKSLASH then Some BACKSLASH
  else if c =? ch "/" then Some (ch "/")
  else if c =? ch "b" then Some 8
  else if c =? ch "f" then Some 12
  else if c =? ch "n" then Some 10
  else if c =? ch "r" then Some 13
  else if c =? ch "t" then Some 9
  else None.

(** The text after an opening quote, up to the closing one. *)
Fixpoint scan_string (fuel : nat) (s acc : pystr) : option (pystr * pystr) :=
  match fuel with
  | O => None
  | S f =>
      match s with
      | [] => None
      | c :: r =>
          if c =? DQUOTE then Some (rev acc, r)
          else if c =? BACKSLASH then
            match r with
            | [] => None
            | e :: r' =>
                if e =? ch "u" then
                  match hex4 r' with
                  | None => None
                  | Some (u, r'') =>
                      let single := scan_string f r'' (u :: acc) in
                      if (55296 <=? u) && (u <=? 56319) then
                        match r'' with
                        | b :: v :: r3 =>
                            if (b =? BACKSLASH) && (v =? ch "u") then
                              match hex4 r3 with
                              | None => None
                              | Some (u2, r4) =>
                                  if (56320 <=? u2) && (u2 <=? 57343) then
                                    scan_string f r4
                                      (65536 + (u - 55296) * 1024 + (u2 - 56320) :: acc)
                                  else single
                              end
                            else single
                        | _ => single
                        end
                      else single
                  end
                else
                  match simple_escape e with
                  | Some x => scan_string f r' (x :: acc)
                  | None => None
                  end
            end
          else if c <? 32 then None
          else scan_string f r (c :: acc)
      end
  end.

Fixpoint span_digits (s : pystr) : pystr * pystr :=
  match s with
  | c :: r =>
      if is_digit c then let '(ds, rest) := span_digits r in (c :: ds, rest)
      else ([], s)
  | [] => ([], [])
  end.

Definition digits_value (ds : pystr) : Z :=
  fold_left (fun acc c => (acc * 10 + Z.of_N (c - 48))%Z) ds 0%Z.

(** The integer part of a number: [0] or a digit run not starting with 0. *)
Definition scan_int (s : pystr) : option (pystr * pystr) :=
  match s with
  | c :: r =>
      if c =? 48 then Some ([c], r)
      else if is_digit c then let '(ds, rest) := span_digits r in Some (c :: ds, rest)
      else None
  | [] => None
  end.

Definition scan_frac (s : pystr) : pystr * pystr :=
  match s with
  | c :: r =>
      if c =? ch "." then
        match span_digits r with
        | ([], _) => ([], s)
        | (ds, rest) => (c :: ds, rest)
        end
      else ([], s)
  | [] => ([], [])
  end.

Definition scan_exp (s : pystr) : pystr * pystr :=
  match s with
  | c :: r =>
      if (c =? ch "e") || (c =? ch "E") then
        let '(sign, r') :=
          match r with
          | g :: r' => if (g =? ch "-") || (g =? ch "+") then ([g], r') else ([], r)
          | [] => ([], r)
          end in
        match span_digits r' with
        | ([], _) => ([], s)
        | (ds, rest) => (c :: sign ++ ds, rest)
        end
      else ([], s)
  | [] => ([], [])
  end.

Definition scan_number (s : pystr) : option (value * pystr) :=
  let '(neg, s1) :=
    match s with
    | c :: r => if c =? ch "-" then (true, r) else (false, s)
    | [] => (false, s)
    end in
  match scan_int s1 with
  | None => None
  | Some (ip, s2) =>
      let '(fp, s3) := scan_frac s2 in
      let '(ep, s4) := scan_exp s3 in
      match fp, ep with
      | [], [] =>
          let n := digits_value ip in
          Some (Int (if neg then (- n)%Z else n), s4)
      | _, _ => Some (Float ((if neg then [ch "-"] else []) ++ ip ++ fp ++ ep), s4)
      end
  end.

Fixpoint strip_prefix (p s : pystr) : option pystr :=
  match p, s with
  | [], _ => Some s
  | x :: p', y :: s' => if x =? y then strip_prefix p' s' else None
  | _ :: _, [] => None
  end.

Definition scan_literal (s : pystr) : option (value * pystr) :=
  match strip_prefix (str "null") s with
  | Some r => Some (Null, r)
  | None =>
  match strip_prefix (str "true") s with
  | Some r => Some (Bool true, r)
  | None =>
  match strip_prefix (str "false") s with
  | Some r => Some (Bool false, r)
  | None =>
  match strip_prefix (str "NaN") s with
  | Some r => Some (Float (str "NaN"), r)
  | None =>
  match strip_prefix (str "Infinity") s with
  | Some r => Some (Float (str "Infinity"), r)
  | None =>
  match strip_prefix (str "-Infinity") s with
  | Some r => Some (Float (str "-Infinity"), r)
  | None => scan_number s
  end end end end end end.

(** One value at the head of [s]; [members] and [elements] read what
    follows the first member or element position of an object or array. *)
Fixpoint scan_once (fuel : nat) (s : pystr) : option (value * pystr) :=
  match fuel with
  | O => None
  | S f =>
      match s with
      | [] => None
      | c :: r =>
          if c =? DQUOTE then
            match scan_string (length r) r [] with
            | Some (t, rest) => Some (Str t, rest)
            | None => None
            end
          else if c =? ch "{" then
            match skip_ws r with
            | c' :: r' =>
                if c' =? ch "}" then Some (Object [], r')
                else
                  match members f (c' :: r') with
                  | Some (kvs, rest) => Some (Object kvs, rest)
                  | None => None
                  end
            | [] => None
            end
          else if c =? ch "[" then
            match skip_ws r with
            | c' :: r' =>
                if c' =? ch "]" then Some (Array [], r')
                else
                  match elements f (c' :: r') with
                  | Some (xs, rest) => Some (Array xs, rest)
                  | None => None
                  end
            | [] => None
            end
          else scan_literal s
      end
  end
with members (fuel : nat) (s : pystr) : option (list (pystr * value) * pystr) :=
  match fuel with
  | O => None
  | S f =>
      match s with
      | c :: r =>
          if c =? DQUOTE then
            match scan_string (length r) r [] with
            | None => None
            | Some (k, s1) =>
                match skip_ws s1 with
                | colon :: s2 =>
                    if colon =? ch ":" then
                      match scan_once f (skip_ws s2) with
                      | None => None
                      | Some (v, s3) =>
                          match skip_ws s3 with
                          | d :: s4 =>
                              if d =? ch "}" then Some ([(k, v)], s4)
                              else if d =? ch "," then
                                match members f (skip_ws s4) with
                                | Some (kvs, rest) => Some ((k, v) :: kvs, rest)
                                | None => None
                                end
                              else None
                          | [] => None
                          end
                      end
                    else None
                | [] => None
                end
            end
          else None
      | [] => None
      end
  end
with elements (fuel : nat) (s : pystr) : option (list value * pystr) :=
  match fuel with
  | O => None
  | S f =>
      match scan_once f s with
      | None => None
      | Some (v, s1) =>
          match skip_ws s1 with
          | d :: s2 =>
              if d =? ch "]" then Some ([v], s2)
              else if d =? ch "," then
                match elements f (skip_ws s2) with
                | Some (xs, rest) => Some (v :: xs, rest)
                | None => None
                end
              else None
          | [] => None
          end
      end
  end.

(** Reference decoder for [json.loads(s)] on a [str]: the grammar CPython's
    decoder accepts (leading byte-order mark refused, surrounding white
    space skipped, trailing data refused).  The interpreter's limits on
    nesting depth and on the length of integer literals are not part of
    it. *)
Definition loads (s : pystr) : res value :=
  match s with
  | 65279 :: _ => Err JSONDecodeError
  | _ =>
      match scan_once (S (length s)) (skip_ws s) with
      | Some (v, rest) =>
          match skip_ws rest with
          | [] => Ok v
          | _ :: _ => Err JSONDecodeError
          end
      | None => Err JSONDecodeError
      end
  end.

(** A string literal of a JSON text, quotes included. *)
Definition quoted (s : string) : pystr := DQUOTE :: str s ++ [DQUOTE].

End Json.

(* ===================================================================== *)
(** ** Collaborators                                                      *)
(* ===================================================================== *)

Definition bytes : Type := list Byte.byte.

(** The dict returned by [websocket.receive()].  The keys ["bytes"] and
    ["text"] may be missing, or present with the value [None]. *)
Record Message := {
  msg_type : pystr;
  msg_bytes : option (option bytes);
  msg_text : option (option pystr);
}.

(** The client socket object; [py_id] is [id(websocket)]. *)
Record WebSocket := { ws_address : Z }.

Definition py_id (websocket : WebSocket) : Z := ws_address websocket.

(** Objects delivered by the provider, seen through the attributes the
    service probes: an outer [None] is a missing attribute, an inner one
    the value [None]. *)
Record Alternative := {
  transcript : pystr;
  confidence : pyval;
}.

Record Channel := { alternatives : list Alternative }.

Record Metadata := { metadata_is_final : option pyval }.

Record ProviderObject := {
  attr_channel : option (option Channel);
  attr_is_final : option pyval;
  attr_metadata : option (option Metadata);
  attr_start : option pyval;
  attr_type : option pyval;
}.

(** [getattr(obj, name, default)] *)
Definition getattr (a : option pyval) (default : pyval) : pyval :=
  match a with
  | Some v => v
  | None => default
  end.

(** What travels on [message_queue]: a provider object, or [None], the
    value that ends the consumer. *)
Definition item : Type := option ProviderObject.

Inductive level := DEBUG | INFO | ERROR.

Inductive task := KeepaliveTask | SendTask.

(** Calls on collaborators.  A [Log] carries the text of the logging call
    as the source writes it (for an f-string, its template). *)
Inductive call :=
| Log (lv : level) (text : string)
| DgNew                              (* self.deepgram.listen.websocket.v("1") *)
| DgOn (event : string)              (* deepgram_connection.on(event, handler) *)
| DgStart                            (* deepgram_connection.start(options) *)
| DgSend (payload : option bytes)    (* deepgram_connection.send(payload) *)
| DgFinish                           (* deepgram_connection.finish() *)
| CreateTask (t : task)              (* asyncio.create_task(t()) *)
| CancelTask (t : task)              (* handle.cancel() *)
| QueuePut (x : item)                (* message_queue.put / put_nowait *)
| WsSendJson (m : pydict).           (* websocket.send_json(m) *)

(** Answers of the collaborators the code branches on. *)
Record Env := {
  json_loads : pystr -> res Json.value;    (* json.loads on a str *)
  deepgram_start : res bool;               (* deepgram_connection.start(options) *)
  send_json_result : res unit;             (* websocket.send_json(...) *)
}.

(* ===================================================================== *)
(** ** Session state and coroutines                                       *)
(* ===================================================================== *)

Record state := {
  active_connections : gmap Z WebSocket;   (* self.active_connections *)
  message_queue : list item;               (* the handler's asyncio.Queue *)
  keepalive_task_handle : bool;            (* 'keepalive_task_handle' in locals() *)
  calls : list call;                       (* calls made so far, oldest first *)
}.

Definition set_active_connections (f : gmap Z WebSocket -> gmap Z WebSocket) (s : state) : state :=
  {| active_connections := f (active_connections s);
     message_queue := message_queue s;
     keepalive_task_handle := keepalive_task_handle s;
     calls := calls s |}.

Definition set_message_queue (f : list item -> list item) (s : state) : state :=
  {| active_connections := active_connections s;
     message_queue := f (message_queue s);
     keepalive_task_handle := keepalive_task_handle s;
     calls := calls s |}.

Definition set_keepalive_task_handle (b : bool) (s : state) : state :=
  {| active_connections := active_connections s;
     message_queue := message_queue s;
     keepalive_task_handle := b;
     calls := calls s |}.

Definition add_calls (cs : list call) (s : state) : state :=
  {| active_connections := active_connections s;
     message_queue := message_queue s;
     keepalive_task_handle := keepalive_task_handle s;
     calls := calls s ++ cs |}.

Inductive outcome (A : Type) :=
| Return (a : A)
| Raise (e : exn)
| Suspended.
Arguments Return {A} a.
Arguments Raise {A} e.
Arguments Suspended {A}.

Definition M (A : Type) : Type := state -> outcome A * state.

Definition ret {A} (a : A) : M A := fun s => (Return a, s).

Definition bind {A B} (m : M A) (k : A -> M B) : M B :=
  fun s =>
    match m s with
    | (Return a, s') => k a s'
    | (Raise e, s') => (Raise e, s')
    | (Suspended, s') => (Suspended, s')
    end.

Definition raise {A} (e : exn) : M A := fun s => (Raise e, s).

(** An [await] whose result has not arrived. *)
Definition suspend {A} : M A := fun s => (Suspended, s).

Definition invoke (c : call) : M unit := fun s => (Return tt, add_calls [c] s).

Definition modify (f : state -> state) : M unit := fun s => (Return tt, f s).

Definition lift {A} (r : res A) : M A :=
  match r with
  | Ok a => ret a
  | Err e => raise e
  end.

Declare Scope coroutine_scope.
Delimit Scope coroutine_scope with coroutine.
Bind Scope coroutine_scope with M.

Notation "x <- m ;; k" := (bind m (fun x => k))
  (at level 100, m at next level, k at level 200, right associativity) : coroutine_scope.
Notation "m ;; k" := (bind m (fun _ => k))
  (at level 100, k at level 200, right associativity) : coroutine_scope.

Local Open Scope coroutine_scope.

(** [try: body / except ...: handler e]: [handlers e] is the body of the
    first clause that matches [e], if one does. *)
Definition try_except {A} (body : M A) (handlers : exn -> option (M A)) : M A :=
  fun s =>
    match body s with
    | (Raise e, s') =>
        match handlers e with
        | Some h => h s'
        | None => (Raise e, s')
        end
    | r => r
    end.

(** [try: body / finally: final].  A suspended body has not left the
    [try] yet. *)
Definition try_finally {A} (body : M A) (final : M unit) : M A :=
  fun s =>
    match body s with
    | (Suspended, s') => (Suspended, s')
    | (o, s') =>
        match final s' with
        | (Return _, s'') => (o, s'')
        | (Raise e, s'') => (Raise e, s'')
        | (Suspended, s'') => (Suspended, s'')
        end
    end.

Definition when (b : bool) (m : M unit) : M unit := if b then m else ret tt.

(** [message_queue.put(x)] and [put_nowait(x)] on the unbounded queue. *)
Definition queue_put (x : item) : M unit :=
  invoke (QueuePut x) ;; modify (set_message_queue (fun q => q ++ [x])).

(* ===================================================================== *)
(** ** VoiceService                                                       *)
(* ===================================================================== *)

Section VoiceService.

Variable env : Env.

(** [await websocket.send_json(m)] *)
Definition send_json (m : pydict) : M unit :=
  invoke (WsSendJson m) ;; lift (send_json_result env).

(** [VoiceService.process_deepgram_message(websocket, data)] *)
Definition process_deepgram_message (data : ProviderObject) : M unit :=
  try_except
    (invoke (Log INFO "Processing Deepgram message: {type(data)} - {str(data)[:200]}...") ;;
     (* Handle LiveResultResponse objects directly *)
     match attr_channel data with
     | Some (Some channel) =>
         match alternatives channel with
         | transcript_data :: _ =>
             let text := transcript transcript_data in
             let confidence := confidence transcript_data in
             (* Get is_final from the result *)
             let is_final := getattr (attr_is_final data) (VBool false) in
             let is_final :=
               match negb (truthy is_final), attr_metadata data with
               | true, Some (Some metadata) =>
                   getattr (metadata_is_final metadata) (VBool false)
               | _, _ => is_final
               end in
             invoke (Log INFO "Transcript: '{text}' (confidence: {confidence}, is_final: {is_final})") ;;
             match strip text with
             | _ :: _ =>
                 let message :=
                   [("type"%string, VStr (str "transcript"));
                    ("text"%string, VStr text);
                    ("confidence"%string, confidence);
                    ("is_final"%string, is_final);
                    ("timestamp"%string, getattr (attr_start data) (VInt 0))] in
                 invoke (Log INFO "Sending transcript message to frontend: {message}") ;;
                 send_json message ;;
                 when (truthy is_final)
                   (invoke (Log INFO "Final transcript sent to frontend: {text}"))
             | [] => ret tt
             end
         | [] => ret tt
         end
     | _ => ret tt
     end ;;
     (* Handle special message types *)
     match attr_type data with
     | Some message_type =>
         if Py.eq_str message_type "UtteranceEnd" then
           send_json [("type"%string, VStr (str "utterance_end"));
                      ("message"%string, VStr (str "Utterance ended"))] ;;
           invoke (Log INFO "Utterance end signal sent to frontend.")
         else if Py.eq_str message_type "SpeechFinal" then
           send_json [("type"%string, VStr (str "speech_final"));
                      ("message"%string, VStr (str "Speech segment completed"))]
         else ret tt
     | None => ret tt
     end)
    (fun e =>
       if is_Exception e
       then Some (invoke (Log ERROR "Error processing Deepgram message: {e}"))
       else None).

(** The two handlers registered on the provider connection. *)
Definition on_message (result : ProviderObject) : M unit :=
  try_except
    (queue_put (Some result))
    (fun e =>
       if is_Exception e
       then Some (invoke (Log ERROR "Error putting message in queue: {e}"))
       else None).

Definition on_error (error : ProviderObject) : M unit :=
  invoke (Log ERROR "Deepgram error: {error}") ;;
  queue_put (Some error).

(** [send_task]: the consumer.  [send_task_from q] runs it on the queue
    contents [q]; nothing it calls touches the queue. *)
Fixpoint send_task_from (q : list item) : M unit :=
  match q with
  | [] => suspend                        (* await message_queue.get() *)
  | message :: rest =>
      modify (set_message_queue (fun _ => rest)) ;;
      match message with
      | None => ret tt                   (* Sentinel value to end task *)
      | Some data => process_deepgram_message data ;; send_task_from rest
      end
  end.

Definition send_task : M unit := fun s => send_task_from (message_queue s) s.

(** The [while True] loop of the handler, run on the results [inbox] of the
    successive [await websocket.receive()]; it returns when it breaks. *)
Fixpoint relay_loop (inbox : list (res Message)) : M unit :=
  match inbox with
  | [] => suspend                        (* await websocket.receive() *)
  | received :: rest =>
      message <- lift received ;;
      if pystr_eqb (msg_type message) (str "websocket.disconnect") then
        invoke (Log INFO "Client disconnected.")
      else
        match msg_bytes message, msg_text message with
        | Some payload, _ => invoke (DgSend payload)
        | None, Some text =>
            data <- match text with
                    | Some t => lift (json_loads env t)
                    | None => raise TypeError
                    end ;;
            type <- match data with
                    | Json.Object members => ret (Json.get members (str "type"))
                    | _ => raise AttributeError
                    end ;;
            when (Json.eq_str type "stop_recording")
              (invoke (Log INFO "Stop recording signal received from client."))
        | None, None => ret tt
        end ;;
        relay_loop rest
  end.

(** [VoiceService.handle_voice_stream(websocket)] *)
Definition handle_voice_stream (websocket : WebSocket) (inbox : list (res Message)) : M unit :=
  (* a new frame: no local is bound yet *)
  modify (set_keepalive_task_handle false) ;;
  let connection_id := py_id websocket in
  modify (set_active_connections (fun m => <[connection_id := websocket]> m)) ;;
  invoke (Log INFO "New voice stream connection: {connection_id}") ;;
  modify (set_message_queue (fun _ => [])) ;;
  try_finally
    (try_except
       ((* Initialize the Deepgram connection *)
        invoke DgNew ;;
        invoke (DgOn "Transcript") ;;
        invoke (DgOn "Error") ;;
        started <- (invoke DgStart ;; lift (deepgram_start env)) ;;
        when (negb started)
          (invoke (Log ERROR "Failed to start Deepgram connection.") ;;
           raise (PyException "Failed to start Deepgram connection")) ;;
        invoke (Log INFO "Deepgram connection started successfully") ;;
        invoke (CreateTask KeepaliveTask) ;;
        modify (set_keepalive_task_handle true) ;;
        invoke (CreateTask SendTask) ;;
        (* Main loop to receive audio from client and send to Deepgram *)
        relay_loop inbox ;;
        (* Cleanup *)
        queue_put None ;;
        invoke (CancelTask SendTask) ;;
        invoke DgFinish ;;
        invoke (Log INFO "Deepgram connection finished."))
       (fun e =>
          if is_ConnectionClosedOK e
          then Some (invoke (Log INFO "Client connection closed normally."))
          else if is_Exception e
          then Some (invoke (Log ERROR "Voice stream error: {e}"))
          else None))
    ((fun s => when (keepalive_task_handle s) (invoke (CancelTask KeepaliveTask)) s) ;;
     (fun s =>
        when (bool_decide (is_Some (active_connections s !! connection_id)))
          (modify (set_active_connections (fun m => delete connection_id m))) s) ;;
     invoke (Log INFO "Voice stream handler for {connection_id} finished.")).

End VoiceService.

(* ===================================================================== *)
(** ** Inputs and observations                                            *)
(* ===================================================================== *)

(** The messages an ASGI server hands over for a binary frame, a text
    frame and the end of the connection. *)
Definition audio_frame (payload : bytes) : res Message :=
  Ok {| msg_type := str "websocket.receive";
        msg_bytes := Some (Some payload);
        msg_text := None |}.

Definition text_frame (text : pystr) : res Message :=
  Ok {| msg_type := str "websocket.receive";
        msg_bytes := None;
        msg_text := Some (Some text) |}.

Definition disconnect : res Message :=
  Ok {| msg_type := str "websocket.disconnect";
        msg_bytes := None;
        msg_text := None |}.

(** The control message [{"type": "stop_recording"}]. *)
Definition stop_recording_text : pystr :=
  str "{" ++ Json.quoted "type" ++ str ": " ++ Json.quoted "stop_recording" ++ str "}".

Definition client : WebSocket := {| ws_address := 140230 |}.

(** A service with no session, and a world in which the provider starts
    and the client accepts what is sent. *)
Definition idle : state :=
  {| active_connections := ∅;
     message_queue := [];
     keepalive_task_handle := false;
     calls := [] |}.

Definition reference_env : Env :=
  {| json_loads := Json.loads;
     deepgram_start := Ok true;
     send_json_result := Ok tt |}.

(** Shapes of provider objects: a usable [channel], a usable [metadata],
    a [type] equal to a literal. *)
Definition has_channel (data : ProviderObject) : bool :=
  match attr_channel data with
  | Some (Some _) => true
  | _ => false
  end.

Definition has_metadata (data : ProviderObject) : bool :=
  match attr_metadata data with
  | Some (Some _) => true
  | _ => false
  end.

Definition type_is (data : ProviderObject) (lit : string) : bool :=
  match attr_type data with
  | Some t => Py.eq_str t lit
  | None => false
  end.

(** The provider's error report: no [channel], [type] is ["Error"]. *)
Definition provider_error : ProviderObject :=
  {| attr_channel := None;
     attr_is_final := None;
     attr_metadata := None;
     attr_start := None;
     attr_type := Some (VStr (str "Error")) |}.

(** Two interim results whose own flag is false while their metadata
    carries a true one. *)
Definition interim_hello : ProviderObject :=
  {| attr_channel :=
       Some (Some {| alternatives :=
                       [{| transcript := str "hello"; confidence := VFloat (9 # 10) |}] |});
     attr_is_final := Some (VBool false);
     attr_metadata := Some (Some {| metadata_is_final := Some (VBool true) |});
     attr_start := Some (VFloat (3 # 2));
     attr_type := Some (VStr (str "Results")) |}.

Definition interim_ok : ProviderObject :=
  {| attr_channel :=
       Some (Some {| alternatives :=
                       [{| transcript := str " ok"; confidence := VFloat (1 # 2) |}] |});
     attr_is_final := Some (VBool false);
     attr_metadata := Some (Some {| metadata_is_final := Some (VBool true) |});
     attr_start := None;
     attr_type := None |}.

(** The calls made between two states of one run. *)
Definition new_calls (before after : state) : list call :=
  drop (length (calls before)) (calls after).

Definition is_finish (c : call) : bool :=
  match c with DgFinish => true | _ => false end.

Definition is_sentinel_put (c : call) : bool :=
  match c with QueuePut None => true | _ => false end.

(** The calls made before the first push of the sentinel. *)
Fixpoint before_sentinel (cs : list call) : list call :=
  match cs with
  | [] => []
  | c :: r => if is_sentinel_put c then [] else c :: before_sentinel r
  end.

Definition is_create_task (c : call) : bool :=
  match c with CreateTask _ => true | _ => false end.

(** Calls that reach the provider connection. *)
Definition is_provider_call (c : call) : bool :=
  match c with
  | DgNew | DgOn _ | DgStart | DgSend _ | DgFinish => true
  | _ => false
  end.

(** Calls the relay loop itself can make. *)
Definition is_relay_call (c : call) : bool :=
  match c with
  | DgSend _ | Log INFO _ => true
  | _ => false
  end.

(** The calls of the handler outside its loop, by phase: up to the start
    of the two tasks, the cleanup after the loop, the [except] clause that
    catches [e], and the [finally] block of a started session. *)
Definition startup_calls : list call :=
  [Log INFO "New voice stream connection: {connection_id}";
   DgNew; DgOn "Transcript"; DgOn "Error"; DgStart;
   Log INFO "Deepgram connection started successfully";
   CreateTask KeepaliveTask; CreateTask SendTask].

Definition cleanup_calls : list call :=
  [QueuePut None; CancelTask SendTask; DgFinish;
   Log INFO "Deepgram connection finished."].

Definition except_calls (e : exn) : list call :=
  if is_ConnectionClosedOK e then [Log INFO "Client connection closed normally."]
  else if is_Exception e then [Log ERROR "Voice stream error: {e}"]
  else [].

Definition except_outcome (e : exn) : outcome unit :=
  if is_ConnectionClosedOK e || is_Exception e then Return tt else Raise e.

Definition finally_calls : list call :=
  [CancelTask KeepaliveTask;
   Log INFO "Voice stream handler for {connection_id} finished."].

(** The state in which the relay loop starts, and the state in which the
    handler of a started session ends after the calls [d]. *)
Definition started (websocket : WebSocket) (s : state) : state :=
  {| active_connections := <[py_id websocket := websocket]> (active_connections s);
     message_queue := [];
     keepalive_task_handle := true;
     calls := calls s ++ startup_calls |}.

Definition ended (websocket : WebSocket) (s : state) (q : list item) (d : list call) : state :=
  {| active_connections := delete (py_id websocket) (active_connections s);
     message_queue := q;
     keepalive_task_handle := true;
     calls := calls s ++ startup_calls ++ d |}.

(** How the handler of a started session goes on from the result [r] of
    its loop. *)
Definition conclude (websocket : WebSocket) (s : state) (r : outcome unit * state)
    : outcome unit * state :=
  match r with
  | (Suspended, s') => (Suspended, s')
  | (Return _, s') =>
      (Return tt,
       ended websocket s [None]
         (new_calls (started websocket s) s' ++ cleanup_calls ++ finally_calls))
  | (Raise e, s') =>
      (except_outcome e,
       ended websocket s []
         (new_calls (started websocket s) s' ++ except_calls e ++ finally_calls))
  end.

Definition is_object (v : Json.value) : bool :=
  match v with
  | Json.Object _ => true
  | _ => false
  end.

(** The payloads handed to [deepgram_connection.send], in call order. *)
Fixpoint forwarded (cs : list call) : list (option bytes) :=
  match cs with
  | DgSend payload :: r => payload :: forwarded r
  | _ :: r => forwarded r
  | [] => []
  end.

(** The messages handed to [websocket.send_json], in call order. *)
Fixpoint sent (cs : list call) : list pydict :=
  match cs with
  | WsSendJson m :: r => m :: sent r
  | _ :: r => sent r
  | [] => []
  end.

Definition has_type (lit : string) (m : pydict) : bool :=
  match dict_get m "type" with
  | Some v => Py.eq_str v lit
  | None => false
  end.

(* ===================================================================== *)
(** ** What the relay loop reads                                          *)
(* ===================================================================== *)

(** Whether the relay loop, having received [r], goes on to the next
    [receive]: not after a failed receive, a disconnect message, or a text
    that does not decode to an object. *)
Definition keeps_relaying (env : Env) (r : res Message) : bool :=
  match r with
  | Err _ => false
  | Ok message =>
      if pystr_eqb (msg_type message) (str "websocket.disconnect") then false
      else
        match msg_bytes message, msg_text message with
        | Some _, _ => true
        | None, Some (Some t) =>
            match json_loads env t with
            | Ok v => is_object v
            | Err _ => false
            end
        | None, Some None => false
        | None, None => true
        end
  end.

(** The messages handled before the loop ends. *)
Fixpoint while_relaying (env : Env) (inbox : list (res Message)) : list (res Message) :=
  match inbox with
  | [] => []
  | r :: rest => if keeps_relaying env r then r :: while_relaying env rest else []
  end.

(** The value under the key ["bytes"] of a received message, if it has
    that key. *)
Definition bytes_value (r : res Message) : option (option bytes) :=
  match r with
  | Ok message => msg_bytes message
  | Err _ => None
  end.

Definition count_calls (p : call -> bool) (cs : list call) : nat := length (filter p cs).

Definition is_cancel_of (t : task) (c : call) : bool :=
  match c, t with
  | CancelTask KeepaliveTask, KeepaliveTask => true
  | CancelTask SendTask, SendTask => true
  | _, _ => false
  end.

Definition is_create_of (t : task) (c : call) : bool :=
  match c, t with
  | CreateTask KeepaliveTask, KeepaliveTask => true
  | CreateTask SendTask, SendTask => true
  | _, _ => false
  end.

(* ===================================================================== *)
(** ** The keepalive task                                                 *)
(* ===================================================================== *)

(** What one turn of [keepalive_task] meets after its log line:
    [keep_alive()] raises, or it returns and the [await asyncio.sleep(4)]
    that follows completes or raises (a cancellation is raised there). *)
Inductive tick :=
| Slept
| SleepRaised (e : exn)
| KeepAliveRaised (e : exn).

Inductive keepalive_call :=
| KeepaliveLog (lv : level) (text : string)
| KeepAlive                              (* deepgram_connection.keep_alive() *)
| Sleep.                                 (* asyncio.sleep(4) *)

(** The [while True] loop of [keepalive_task] with the list of calls it
    makes; at the end of [ticks] it waits in [sleep]. *)
Fixpoint keepalive_loop (ticks : list tick) : list keepalive_call * outcome unit :=
  match ticks with
  | [] =>
      ([KeepaliveLog DEBUG "Sending keepalive to Deepgram."; KeepAlive; Sleep], Suspended)
  | KeepAliveRaised e :: _ =>
      ([KeepaliveLog DEBUG "Sending keepalive to Deepgram."; KeepAlive], Raise e)
  | SleepRaised e :: _ =>
      ([KeepaliveLog DEBUG "Sending keepalive to Deepgram."; KeepAlive; Sleep], Raise e)
  | Slept :: rest =>
      let '(cs, o) := keepalive_loop rest in
      ([KeepaliveLog DEBUG "Sending keepalive to Deepgram."; KeepAlive; Sleep] ++ cs, o)
  end.

Definition is_CancelledError (e : exn) : bool :=
  match e with
  | CancelledError => true
  | _ => false
  end.

(** [keepalive_task()] *)
Definition keepalive_task (ticks : list tick) : list keepalive_call * outcome unit :=
  match keepalive_loop ticks with
  | (cs, Raise e) =>
      if is_CancelledError e then (cs, Return tt)
      else if is_Exception e
      then (cs ++ [KeepaliveLog ERROR "Keepalive task error: {e}"], Return tt)
      else (cs, Raise e)
  | r => r
  end.

Definition is_slept (t : tick) : bool :=
  match t with
  | Slept => true
  | _ => false
  end.

(** The sleeps that complete before the first tick that raises. *)
Fixpoint completed_sleeps (ticks : list tick) : nat :=
  match ticks with
  | Slept :: rest => S (completed_sleeps rest)
  | _ => O
  end.

Definition is_keep_alive (c : keepalive_call) : bool :=
  match c with
  | KeepAlive => true
  | _ => false
  end.

(* ===================================================================== *)
(** ** Connection statistics                                              *)
(* ===================================================================== *)

Record ConnectionStats := {
  stats_active_connections : nat;
  stats_connection_ids : list Z;
}.

(** [VoiceService.get_connection_stats()].  The keys are listed in the
    order in which the map enumerates them, not in the dict's insertion
    order. *)
Definition get_connection_stats : M ConnectionStats :=
  fun s =>
    (Return {| stats_active_connections := size (active_connections s);
               stats_connection_ids := (map_to_list (active_connections s)).*1 |},
     s).

(* ===================================================================== *)
(** ** Transcription of a recorded file                                   *)
(* ===================================================================== *)

(** The provider's answer as [transcribe_audio_file] reads it: dicts whose
    keys may be missing. *)
Record PreAlternative := {
  alt_transcript : option pyval;
  alt_confidence : option pyval;
}.

Record PreChannel := { channel_alternatives : option (list PreAlternative) }.

Record PreResults := { results_channels : option (list PreChannel) }.

Record PreResponse := { response_results : option PreResults }.

(** Answers of [open(audio_file_path, "rb")] and of
    [transcribe_file(source, options)]; the latter may be [None]. *)
Record FileEnv := {
  open_result : res unit;
  transcribe_file_result : res (option PreResponse);
}.

Record Transcription := {
  result_transcript : pyval;
  result_confidence : pyval;
  result_full_response : option PreResponse;
}.

(** [VoiceService.transcribe_audio_file(audio_file_path)] *)
Definition transcribe_audio_file (world : FileEnv) : M Transcription :=
  try_except
    (lift (open_result world) ;;
     response <- lift (transcribe_file_result world) ;;
     (* Extract transcript *)
     let found :=
       match response with
       | Some r =>
           match response_results r with
           | Some results =>
               match default [] (results_channels results) with
               | channel0 :: _ =>
                   match default [] (channel_alternatives channel0) with
                   | alternative0 :: _ =>
                       (getattr (alt_transcript alternative0) (VStr []),
                        getattr (alt_confidence alternative0) (VFloat 0))
                   | [] => (VStr [], VFloat 0)
                   end
               | [] => (VStr [], VFloat 0)
               end
           | None => (VStr [], VFloat 0)
           end
       | None => (VStr [], VFloat 0)
       end in
     ret {| result_transcript := fst found;
            result_confidence := snd found;
            result_full_response := response |})
    (fun e =>
       if is_Exception e
       then Some (invoke (Log ERROR "File transcription error: {e}") ;; raise e)
       else None).

(* ===================================================================== *)
(** ** The endpoint                                                       *)
(* ===================================================================== *)

(** Calls of [websocket_voice_endpoint] on the socket itself. *)
Inductive socket_call :=
| WsAccept                             (* websocket.accept() *)
| WsClose (code : Z).                  (* websocket.close(code=..., reason=str(e)) *)

(** Answers of the socket to the endpoint. *)
Record SocketEnv := {
  accept_result : res unit;            (* websocket.accept() *)
  client_connected : bool;             (* websocket.client_state.name == "CONNECTED" *)
  close_result : res unit;             (* websocket.close(...) *)
}.

(** The [except Exception as e] clause of the endpoint, entered with the
    socket calls [made] so far. *)
Definition endpoint_except (sock : SocketEnv) (e : exn) (made : list socket_call) (s : state)
    : outcome unit * state * list socket_call :=
  if is_Exception e then
    let s1 := add_calls [Log ERROR "WebSocket error: {e}"] s in
    if client_connected sock then
      match close_result sock with
      | Ok _ => (Return tt, s1, made ++ [WsClose 1000])
      | Err close_error =>
          if is_Exception close_error
          then (Return tt,
                add_calls [Log ERROR "Error closing WebSocket: {close_error}"] s1,
                made ++ [WsClose 1000])
          else (Raise close_error, s1, made ++ [WsClose 1000])
      end
    else (Return tt, s1, made)
  else (Raise e, s, made).

(** [websocket_voice_endpoint(websocket)] of [main.py], with the socket
    calls it makes. *)
Definition websocket_voice_endpoint
    (env : Env) (sock : SocketEnv) (websocket : WebSocket) (inbox : list (res Message))
    (s : state) : outcome unit * state * list socket_call :=
  match accept_result sock with
  | Err e => endpoint_except sock e [WsAccept] s
  | Ok _ =>
      match (invoke (Log INFO "WebSocket connection accepted, starting voice service...") ;;
             handle_voice_stream env websocket inbox) s with
      | (Raise e, s') => endpoint_except sock e [WsAccept] s'
      | (o, s') => (o, s', [WsAccept])
      end
  end.

(** The error report of the endpoint. *)
Definition is_endpoint_error (c : call) : bool :=
  match c with
  | Log ERROR text => String.eqb text "WebSocket error: {e}"
  | _ => false
  end.

Definition is_close (c : socket_call) : bool :=
  match c with
  | WsClose _ => true
  | _ => false
  end.

(* ===================================================================== *)
(** ** Deliveries by the provider                                         *)
(* ===================================================================== *)

(** One invocation of a registered handler by the provider's thread. *)
Inductive delivery :=
| Result (result : ProviderObject)     (* on_message(_, result) *)
| Failure (error : ProviderObject).    (* on_error(_, error) *)

Definition delivered (d : delivery) : ProviderObject :=
  match d with
  | Result result => result
  | Failure error => error
  end.

Definition deliver (d : delivery) : M unit :=
  match d with
  | Result result => on_message result
  | Failure error => on_error error
  end.

Fixpoint deliver_all (ds : list delivery) : M unit :=
  match ds with
  | [] => ret tt
  | d :: rest => deliver d ;; deliver_all rest
  end.

(** The messages the consumer sends for one object. *)
Definition messages_for (env : Env) (data : ProviderObject) : list pydict :=
  sent (calls (snd (process_deepgram_message env data idle))).

(* ===================================================================== *)
(** ** Proof steps                                                        *)
(* ===================================================================== *)

(** One step of a coroutine. *)
Ltac step :=
  unfold bind, ret, raise, suspend, invoke, modify, lift, when; simpl.

(** Case analysis on the answers and attributes the consumer branches on. *)
Ltac crunch :=
  repeat (step;
          match goal with
          | |- context [send_json_result ?env] =>
              destruct (send_json_result env) as [[]|?]
          | |- context [is_Exception ?e] => destruct (is_Exception e)
          | |- context [truthy ?v] => destruct (truthy v)
          | |- context [attr_type ?d] => destruct (attr_type d)
          | |- context [Py.eq_str ?t ?l] => destruct (Py.eq_str t l)
          end);
  step.

(* ===================================================================== *)
(** ** The decoder and [strip] on samples                                 *)
(* ===================================================================== *)

Example loads_stop_recording :
  Json.loads stop_recording_text
  = Ok (Json.Object [(str "type", Json.Str (str "stop_recording"))]).
Proof. reflexivity. Qed.

Example loads_not_json : Json.loads (str "oops") = Err JSONDecodeError.
Proof. reflexivity. Qed.

Example loads_array : Json.loads (str "[1, 2]") = Ok (Json.Array [Json.Int 1; Json.Int 2]).
Proof. reflexivity. Qed.

Example loads_trailing_data : Json.loads (str "{} x") = Err JSONDecodeError.
Proof. reflexivity. Qed.

Example strip_sample : strip (str "  hi there ") = str "hi there".
Proof. reflexivity. Qed.

(* ===================================================================== *)
(** ** Strings                                                            *)
(* ===================================================================== *)

Lemma pystr_eqb_eq (a b : pystr) : pystr_eqb a b = true <-> a = b.
Proof.
  revert b. induction a as [|x a IH]; intros [|y b]; simpl; split; try easy.
  - intros H. apply andb_true_iff in H as [Hx Hab].
    apply N.eqb_eq in Hx. apply IH in Hab. congruence.
  - intros [= -> ->]. rewrite N.eqb_refl. simpl. now apply IH.
Qed.

Lemma lstrip_nil_iff (s : pystr) : lstrip s = [] <-> forallb isspace s = true.
Proof.
  induction s as [|c s IH]; simpl; [easy|].
  destruct (isspace c); simpl; [exact IH | easy].
Qed.

Lemma forallb_rev {A} (f : A -> bool) (l : list A) : forallb f (rev l) = forallb f l.
Proof.
  induction l as [|x l IH]; simpl; [reflexivity|].
  rewrite forallb_app, IH. simpl. rewrite andb_true_r. apply andb_comm.
Qed.

Lemma lstrip_suffix (s : pystr) : exists p, s = p ++ lstrip s /\ forallb isspace p = true.
Proof.
  induction s as [|c s [p [Hp Hs]]]; simpl.
  - exists []. split; reflexivity.
  - destruct (isspace c) eqn:Hc.
    + exists (c :: p). simpl. rewrite Hc, Hs. split; [congruence | reflexivity].
    + exists []. split; reflexivity.
Qed.

(** [s.strip()] is empty exactly when [s] holds white space only. *)
Lemma strip_nil_iff (s : pystr) : strip s = [] <-> forallb isspace s = true.
Proof.
  unfold strip, rstrip. split.
  - intros H.
    assert (Hl : lstrip (rev (lstrip s)) = []).
    { destruct (lstrip (rev (lstrip s))) as [|c l]; [reflexivity|].
      simpl in H. destruct (rev l); discriminate. }
    apply lstrip_nil_iff in Hl. rewrite forallb_rev in Hl.
    destruct (lstrip_suffix s) as [p [Hp Hs]].
    rewrite Hp, forallb_app, Hs, Hl. reflexivity.
  - intros H. apply lstrip_nil_iff in H. rewrite H. reflexivity.
Qed.

(* ===================================================================== *)
(** ** States                                                             *)
(* ===================================================================== *)

Lemma add_calls_nil (s : state) : add_calls [] s = s.
Proof. destruct s. unfold add_calls. simpl. now rewrite app_nil_r. Qed.

Lemma add_calls_app (a b : list call) (s : state) :
  add_calls b (add_calls a s) = add_calls (a ++ b) s.
Proof. unfold add_calls. simpl. now rewrite app_assoc. Qed.

Lemma new_calls_add_calls (d : list call) (s : state) : new_calls s (add_calls d s) = d.
Proof. unfold new_calls, add_calls. simpl. apply drop_app_length. Qed.

(** Nested additions of calls as one addition. *)
Ltac flatten_calls :=
  repeat rewrite add_calls_app;
  rewrite ?new_calls_add_calls;
  simpl.

Lemma forwarded_app (a b : list call) : forwarded (a ++ b) = forwarded a ++ forwarded b.
Proof.
  induction a as [|c a IH]; simpl; [reflexivity|].
  destruct c; simpl; rewrite IH; reflexivity.
Qed.

(* ===================================================================== *)
(** ** The relay loop                                                     *)
(* ===================================================================== *)

Section RelayLoop.

Variable env : Env.

(** The loop only adds calls to the state, and only [send]s and
    information logs. *)
Lemma relay_loop_appends (inbox : list (res Message)) (s : state) :
  exists d, snd (relay_loop env inbox s) = add_calls d s
            /\ forallb is_relay_call d = true.
Proof.
  revert s. induction inbox as [|received rest IH]; intros s.
  - exists []. simpl. now rewrite add_calls_nil.
  - simpl. destruct received as [message|e]; step.
    2:{ exists []. now rewrite add_calls_nil. }
    destruct (pystr_eqb (msg_type message) (str "websocket.disconnect")).
    { eexists. split; [reflexivity|reflexivity]. }
    destruct (msg_bytes message) as [payload|].
    { destruct (IH (add_calls [DgSend payload] s)) as [d [Hd Hf]].
      exists (DgSend payload :: d). rewrite Hd, add_calls_app. now split. }
    destruct (msg_text message) as [[t|]|]; step.
    + destruct (json_loads env t) as [data|e]; step.
      2:{ exists []. now rewrite add_calls_nil. }
      destruct data; step; try (exists []; now rewrite add_calls_nil).
      destruct (Json.eq_str _ _); step.
      * destruct (IH (add_calls [Log INFO "Stop recording signal received from client."] s))
          as [d [Hd Hf]].
        eexists (_ :: d). rewrite Hd, add_calls_app. now split.
      * apply IH.
    + exists []. now rewrite add_calls_nil.
    + apply IH.
Qed.

(** Messages that arrive while the loop waits are handled from where it
    waits; once it has left, later messages change nothing. *)
Lemma relay_loop_app (pre ext : list (res Message)) (s : state) :
  relay_loop env (pre ++ ext) s
  = match relay_loop env pre s with
    | (Suspended, s') => relay_loop env ext s'
    | r => r
    end.
Proof.
  revert s. induction pre as [|received rest IH]; intros s; [reflexivity|].
  simpl. destruct received as [message|e]; step; [|reflexivity].
  destruct (pystr_eqb (msg_type message) (str "websocket.disconnect")); [reflexivity|].
  destruct (msg_bytes message) as [payload|]; [apply IH|].
  destruct (msg_text message) as [[t|]|]; step; [|reflexivity|apply IH].
  destruct (json_loads env t) as [data|e]; step; [|reflexivity].
  destruct data; step; try reflexivity.
  destruct (Json.eq_str _ _); step; apply IH.
Qed.

Lemma relay_loop_audio_frames (frames : list bytes) (s : state) :
  relay_loop env (map audio_frame frames) s
  = (Suspended, add_calls (map (fun b => DgSend (Some b)) frames) s).
Proof.
  revert s. induction frames as [|b frames IH]; intros s; simpl.
  - unfold suspend. now rewrite add_calls_nil.
  - step. rewrite IH, add_calls_app. reflexivity.
Qed.

Lemma relay_loop_disconnect (more : list (res Message)) (s : state) :
  relay_loop env (disconnect :: more) s
  = (Return tt, add_calls [Log INFO "Client disconnected."] s).
Proof. reflexivity. Qed.

Lemma relay_loop_text_object (t : pystr) members (more : list (res Message)) (s : state) :
  json_loads env t = Ok (Json.Object members) ->
  relay_loop env (text_frame t :: more) s
  = relay_loop env more
      (add_calls
         (if Json.eq_str (Json.get members (str "type")) "stop_recording"
          then [Log INFO "Stop recording signal received from client."]
          else [])
         s).
Proof.
  intros H. simpl. step. rewrite H. step.
  destruct (Json.eq_str _ _); step; [reflexivity | now rewrite add_calls_nil].
Qed.

Lemma relay_loop_text_failure (t : pystr) :
  json_loads env t = Err JSONDecodeError
  \/ (exists v, json_loads env t = Ok v /\ is_object v = false) ->
  exists e, is_Exception e = true /\ is_ConnectionClosedOK e = false
            /\ forall more s, relay_loop env (text_frame t :: more) s = (Raise e, s).
Proof.
  intros [H | [v [H Hv]]].
  - exists JSONDecodeError. repeat split. intros more s.
    simpl; step; rewrite H; reflexivity.
  - exists AttributeError. repeat split. intros more s.
    simpl; step; rewrite H; step. destruct v; try discriminate; reflexivity.
Qed.

End RelayLoop.

(* ===================================================================== *)
(** ** The handler, phase by phase                                        *)
(* ===================================================================== *)

Section Handler.

Variable env : Env.
Variable websocket : WebSocket.

Lemma state_eq (s t : state) :
  active_connections s = active_connections t ->
  message_queue s = message_queue t ->
  keepalive_task_handle s = keepalive_task_handle t ->
  calls s = calls t ->
  s = t.
Proof. destruct s, t; simpl; intros; subst; reflexivity. Qed.

(** A session whose provider connection started: the handler waits with
    the loop, or ends with the cleanup after a break, or with the matching
    [except] clause after an exception; the [finally] block runs in the
    last two cases. *)
Lemma handle_voice_stream_started (inbox : list (res Message)) (s : state) :
  deepgram_start env = Ok true ->
  exists d,
    forallb is_relay_call d = true
    /\ snd (relay_loop env inbox (started websocket s)) = add_calls d (started websocket s)
    /\ handle_voice_stream env websocket inbox s
       = match fst (relay_loop env inbox (started websocket s)) with
         | Suspended => (Suspended, add_calls d (started websocket s))
         | Return _ =>
             (Return tt, ended websocket s [None] (d ++ cleanup_calls ++ finally_calls))
         | Raise e =>
             (except_outcome e, ended websocket s [] (d ++ except_calls e ++ finally_calls))
         end.
Proof.
  intros Hstart.
  destruct (relay_loop_appends env inbox (started websocket s)) as [d [Hd Hf]].
  exists d. split; [exact Hf|]. split; [exact Hd|].
  unfold handle_voice_stream, try_finally, try_except. step. rewrite Hstart. step.
  match goal with
  | |- context [relay_loop env inbox ?s0] =>
      replace s0 with (started websocket s)
        by (apply state_eq; simpl; try reflexivity;
            repeat rewrite <- app_assoc; reflexivity)
  end.
  destruct (relay_loop env inbox (started websocket s)) as [o s'] eqn:Hrun.
  simpl in Hd. subst s'. destruct o as [[]|e|]; simpl.
  - rewrite lookup_insert_eq. simpl. f_equal.
    apply state_eq; simpl; try reflexivity.
    + apply delete_insert_eq.
    + repeat rewrite <- app_assoc. reflexivity.
  - unfold except_outcome, except_calls.
    destruct (is_ConnectionClosedOK e); simpl;
      [|destruct (is_Exception e); simpl];
      rewrite lookup_insert_eq; simpl; f_equal;
      apply state_eq; simpl; try reflexivity;
      try apply delete_insert_eq;
      repeat rewrite <- app_assoc; try reflexivity.
  - reflexivity.
Qed.

(** A session whose provider connection did not start: [start] answered
    false, or raised. *)
Lemma handle_voice_stream_not_started (inbox : list (res Message)) (s : state) :
  deepgram_start env = Ok false \/ (exists e, deepgram_start env = Err e) ->
  handle_voice_stream env websocket inbox s
  = (match deepgram_start env with
     | Ok _ => Return tt
     | Err e => except_outcome e
     end,
     {| active_connections := delete (py_id websocket) (active_connections s);
        message_queue := [];
        keepalive_task_handle := false;
        calls := calls s
                 ++ [Log INFO "New voice stream connection: {connection_id}";
                     DgNew; DgOn "Transcript"; DgOn "Error"; DgStart]
                 ++ match deepgram_start env with
                    | Ok _ => [Log ERROR "Failed to start Deepgram connection.";
                               Log ERROR "Voice stream error: {e}"]
                    | Err e => except_calls e
                    end
                 ++ [Log INFO "Voice stream handler for {connection_id} finished."] |}).
Proof.
  intros Hstart.
  unfold handle_voice_stream, try_finally, try_except. step.
  destruct Hstart as [H | [e H]]; rewrite H; step.
  - rewrite lookup_insert_eq. simpl. f_equal.
    apply state_eq; simpl; try reflexivity.
    + apply delete_insert_eq.
    + repeat rewrite <- app_assoc. reflexivity.
  - unfold except_outcome, except_calls.
    destruct (is_ConnectionClosedOK e); simpl;
      [|destruct (is_Exception e); simpl];
      rewrite lookup_insert_eq; simpl; f_equal;
      apply state_eq; simpl; try reflexivity;
      try apply delete_insert_eq;
      repeat rewrite <- app_assoc; try reflexivity.
Qed.

Lemma handle_voice_stream_conclude (inbox : list (res Message)) (s : state) :
  deepgram_start env = Ok true ->
  handle_voice_stream env websocket inbox s
  = conclude websocket s (relay_loop env inbox (started websocket s)).
Proof.
  intros Hstart.
  destruct (handle_voice_stream_started inbox s Hstart) as [d [_ [Hd Hrun]]].
  rewrite Hrun. destruct (relay_loop env inbox (started websocket s)) as [o s'].
  simpl in *. subst s'. unfold conclude.
  rewrite new_calls_add_calls. destruct o as [[]|e|]; reflexivity.
Qed.

(** Only a started session waits; what arrives then is handled from the
    state in which the handler waits. *)
Lemma handle_voice_stream_resume (pre ext : list (res Message)) (s : state) :
  fst (handle_voice_stream env websocket pre s) = Suspended ->
  deepgram_start env = Ok true
  /\ (exists d, forallb is_relay_call d = true
                /\ snd (handle_voice_stream env websocket pre s)
                   = add_calls d (started websocket s))
  /\ handle_voice_stream env websocket (pre ++ ext) s
     = conclude websocket s
         (relay_loop env ext (snd (handle_voice_stream env websocket pre s))).
Proof.
  intros Hwait.
  assert (Hstart : deepgram_start env = Ok true).
  { destruct (deepgram_start env) as [[|]|e] eqn:Hs; [reflexivity| |].
    - rewrite handle_voice_stream_not_started in Hwait by (left; exact Hs).
      rewrite Hs in Hwait. discriminate.
    - rewrite handle_voice_stream_not_started in Hwait by (right; eauto).
      rewrite Hs in Hwait. simpl in Hwait.
      unfold except_outcome in Hwait. destruct (_ || _); discriminate. }
  split; [exact Hstart|].
  rewrite (handle_voice_stream_conclude (pre ++ ext) s Hstart).
  rewrite (handle_voice_stream_conclude pre s Hstart) in *.
  rewrite relay_loop_app.
  destruct (relay_loop_appends env pre (started websocket s)) as [d [Hd Hf]].
  destruct (relay_loop env pre (started websocket s)) as [o s'].
  simpl in Hd. subst s'.
  destruct o as [[]|e|]; simpl in Hwait.
  - discriminate.
  - unfold except_outcome in Hwait. destruct (_ || _); discriminate.
  - simpl. split; [exists d; now split | reflexivity].
Qed.

End Handler.

(* ===================================================================== *)
(** ** Properties of the handler                                          *)
(* ===================================================================== *)

Lemma new_calls_ended (websocket : WebSocket) (s : state) (q : list item) (d : list call) :
  new_calls s (ended websocket s q d) = startup_calls ++ d.
Proof. unfold new_calls, ended. simpl. apply drop_app_length. Qed.

Lemma new_calls_started (websocket : WebSocket) (s : state) (d : list call) :
  new_calls s (add_calls d (started websocket s)) = startup_calls ++ d.
Proof.
  unfold new_calls, add_calls, started. simpl.
  rewrite <- app_assoc. apply drop_app_length.
Qed.

Lemma new_calls_started_ended
    (websocket : WebSocket) (s : state) (q : list item) (d x : list call) :
  new_calls (add_calls d (started websocket s)) (ended websocket s q (d ++ x)) = x.
Proof.
  unfold new_calls, add_calls, started, ended. cbn [calls].
  rewrite !app_assoc. apply drop_app_length.
Qed.

Lemma relay_calls_no_sentinel (d : list call) :
  forallb is_relay_call d = true ->
  filter is_sentinel_put d = [] /\ filter is_finish d = []
  /\ filter is_create_task d = [].
Proof.
  induction d as [|c d IH]; simpl; [now repeat split|].
  intros H. apply andb_true_iff in H as [Hc Hd].
  destruct (IH Hd) as [H1 [H2 H3]].
  destruct c as [[]| | | | | | | | |]; simpl in *; try discriminate;
    rewrite ?H1, ?H2, ?H3; now repeat split.
Qed.

Lemma relay_loop_waits (env : Env) (inbox : list (res Message)) (s : state) :
  forallb (keeps_relaying env) inbox = true ->
  fst (relay_loop env inbox s) = Suspended.
Proof.
  revert s. induction inbox as [|received rest IH]; intros s; [reflexivity|].
  simpl. intros H. apply andb_true_iff in H as [Hkeep Hrest].
  unfold keeps_relaying in Hkeep.
  destruct received as [message|e]; [|discriminate]. step.
  destruct (pystr_eqb (msg_type message) (str "websocket.disconnect")); [discriminate|].
  destruct (msg_bytes message) as [payload|]; [now apply IH|].
  destruct (msg_text message) as [[t|]|]; step; [|discriminate|now apply IH].
  destruct (json_loads env t) as [data|e]; [|discriminate]. step.
  destruct data; try discriminate. step.
  destruct (Json.eq_str _ _); step; now apply IH.
Qed.

(** C10.  The handler puts the connection in [active_connections] when it
    is entered and takes it out before it is left, whether it returns or
    an exception escapes: the entry is there exactly while the handler
    waits in its loop, and the other entries are never touched.  The
    entry is really put in: a handler whose provider connection started
    and that has received nothing, or only messages that keep its loop
    running, waits with the connection registered. *)
Theorem active_connection_removed_on_every_exit
    (env : Env) (websocket : WebSocket) (inbox : list (res Message)) (s : state) :
  let r := handle_voice_stream env websocket inbox s in
  match fst r with
  | Suspended =>
      active_connections (snd r) !! py_id websocket = Some websocket
      /\ active_connections (snd r)
         = <[py_id websocket := websocket]> (active_connections s)
  | _ =>
      active_connections (snd r) !! py_id websocket = None
      /\ active_connections (snd r) = delete (py_id websocket) (active_connections s)
  end
  /\ (deepgram_start env = Ok true ->
      forallb (keeps_relaying env) inbox = true ->
      fst r = Suspended
      /\ active_connections (snd r) !! py_id websocket = Some websocket
      /\ active_connections (snd r)
         = <[py_id websocket := websocket]> (active_connections s)).
Proof.
  simpl. split.
  - destruct (deepgram_start env) as [[|]|e] eqn:Hstart.
    + destruct (handle_voice_stream_started env websocket inbox s Hstart)
        as [d [_ [_ Hrun]]].
      rewrite Hrun.
      destruct (fst (relay_loop env inbox (started websocket s))) as [[]|e|]; simpl.
      * split; [apply lookup_delete_eq | reflexivity].
      * unfold except_outcome. destruct (_ || _); simpl;
          (split; [apply lookup_delete_eq | reflexivity]).
      * split; [apply lookup_insert_eq | reflexivity].
    + rewrite handle_voice_stream_not_started by (left; exact Hstart).
      rewrite Hstart. simpl. split; [apply lookup_delete_eq | reflexivity].
    + rewrite handle_voice_stream_not_started by (right; eauto).
      rewrite Hstart. simpl.
      unfold except_outcome. destruct (_ || _); simpl;
        (split; [apply lookup_delete_eq | reflexivity]).
  - intros Hstart Hkeep.
    destruct (handle_voice_stream_started env websocket inbox s Hstart)
      as [d [_ [_ Hrun]]].
    rewrite Hrun, (relay_loop_waits env inbox _ Hkeep). simpl.
    split; [reflexivity|]. split; [apply lookup_insert_eq | reflexivity].
Qed.

(** A session that has received one audio frame waits, registered. *)
Lemma active_connection_removed_on_every_exit_witness :
  (deepgram_start reference_env = Ok true
   /\ forallb (keeps_relaying reference_env) [audio_frame [Byte.x01]] = true)
  /\ fst (handle_voice_stream reference_env client [audio_frame [Byte.x01]] idle) = Suspended
  /\ active_connections
       (snd (handle_voice_stream reference_env client [audio_frame [Byte.x01]] idle))
     !! py_id client = Some client
  /\ active_connections
       (snd (handle_voice_stream reference_env client [audio_frame [Byte.x01]] idle))
     = <[py_id client := client]> (active_connections idle).
Proof.
  split; [split; reflexivity|].
  apply (proj2 (active_connection_removed_on_every_exit reference_env client
                  [audio_frame [Byte.x01]] idle));
    reflexivity.
Defined.

(** C9.  When [start] fails (it answers false or raises), the handler
    creates no task and forwards nothing, never waits in the relay loop
    and reads no client message; it logs the failure as an error and
    returns. *)
Theorem failed_start_starts_no_loop
    (env : Env) (websocket : WebSocket) (inbox : list (res Message)) (s : state) :
  deepgram_start env = Ok false \/ (exists e, deepgram_start env = Err e) ->
  let r := handle_voice_stream env websocket inbox s in
  let d := new_calls s (snd r) in
  filter is_create_task d = []
  /\ forwarded d = []
  /\ keepalive_task_handle (snd r) = false
  /\ fst r <> Suspended
  /\ r = handle_voice_stream env websocket [] s
  /\ (deepgram_start env = Ok false ->
      fst r = Return tt
      /\ In (Log ERROR "Failed to start Deepgram connection.") d
      /\ In (Log ERROR "Voice stream error: {e}") d)
  /\ (forall e, deepgram_start env = Err e ->
      is_Exception e = true -> is_ConnectionClosedOK e = false ->
      fst r = Return tt /\ In (Log ERROR "Voice stream error: {e}") d).
Proof.
  intros Hstart. simpl.
  rewrite (handle_voice_stream_not_started env websocket inbox s Hstart).
  rewrite (handle_voice_stream_not_started env websocket [] s Hstart).
  unfold new_calls. simpl. rewrite drop_app_length.
  destruct (deepgram_start env) as [b|e] eqn:Hs.
  - simpl. repeat split; try reflexivity; try discriminate.
    + simpl. tauto.
    + simpl. tauto.
  - assert (He : fst (except_outcome e, idle) <> Suspended).
    { unfold except_outcome. destruct (_ || _); discriminate. }
    unfold except_calls, except_outcome in *.
    destruct (is_ConnectionClosedOK e) eqn:Hc, (is_Exception e) eqn:Hx; simpl in *;
      repeat split; try reflexivity; try discriminate; try exact He;
      match goal with H : Err _ = Err _ |- _ => injection H as <- end;
      first [congruence | tauto].
Qed.

Lemma failed_start_starts_no_loop_witness :
  (deepgram_start {| json_loads := Json.loads; deepgram_start := Ok false;
                     send_json_result := Ok tt |} = Ok false
   \/ exists e, deepgram_start {| json_loads := Json.loads; deepgram_start := Ok false;
                                  send_json_result := Ok tt |} = Err e)
  /\ filter is_create_task
       (new_calls idle
          (snd (handle_voice_stream
                  {| json_loads := Json.loads; deepgram_start := Ok false;
                     send_json_result := Ok tt |}
                  client [audio_frame [Byte.x01]; disconnect] idle))) = [].
Proof.
  split; [left; reflexivity|].
  apply (failed_start_starts_no_loop
           {| json_loads := Json.loads; deepgram_start := Ok false;
              send_json_result := Ok tt |}
           client [audio_frame [Byte.x01]; disconnect] idle).
  left; reflexivity.
Defined.

(** C5.  A [stop_recording] message does not end the relay loop: after
    it the handler still waits for the client, and the binary frames that
    follow are handed to the provider connection, each once and in the
    order of receipt. *)
Theorem stop_recording_keeps_forwarding
    (env : Env) (websocket : WebSocket) (pre : list (res Message))
    (t : pystr) (members : list (pystr * Json.value)) (frames : list bytes)
    (s : state) :
  fst (handle_voice_stream env websocket pre s) = Suspended ->
  json_loads env t = Ok (Json.Object members) ->
  Json.eq_str (Json.get members (str "type")) "stop_recording" = true ->
  let before := snd (handle_voice_stream env websocket pre s) in
  let r := handle_voice_stream env websocket
             (pre ++ text_frame t :: map audio_frame frames) s in
  fst r = Suspended
  /\ new_calls before (snd r)
     = Log INFO "Stop recording signal received from client."
       :: map (fun b => DgSend (Some b)) frames
  /\ forwarded (new_calls s (snd r))
     = forwarded (new_calls s before) ++ map Some frames.
Proof.
  intros Hwait Hjson Hstop. simpl.
  destruct (handle_voice_stream_resume env websocket pre
              (text_frame t :: map audio_frame frames) s Hwait)
    as [_ [[d [_ Hbefore]] Hrun]].
  rewrite Hrun, (relay_loop_text_object env t members _ _ Hjson), Hstop.
  rewrite relay_loop_audio_frames. simpl.
  rewrite add_calls_app, new_calls_add_calls.
  split; [reflexivity|]. split; [reflexivity|].
  rewrite Hbefore, add_calls_app, !new_calls_started, !forwarded_app.
  rewrite <- app_assoc. do 2 f_equal. simpl. clear Hrun.
  induction frames as [|b frames IH]; simpl; [reflexivity | now rewrite IH].
Qed.

Lemma stop_recording_keeps_forwarding_witness :
  (fst (handle_voice_stream reference_env client [audio_frame [Byte.x01]] idle) = Suspended
   /\ json_loads reference_env stop_recording_text
      = Ok (Json.Object [(str "type", Json.Str (str "stop_recording"))])
   /\ Json.eq_str (Json.get [(str "type", Json.Str (str "stop_recording"))] (str "type"))
        "stop_recording" = true)
  /\ forwarded
       (new_calls idle
          (snd (handle_voice_stream reference_env client
                  ([audio_frame [Byte.x01]]
                   ++ text_frame stop_recording_text
                      :: map audio_frame [[Byte.x02]; [Byte.x03]]) idle)))
     = forwarded
         (new_calls idle
            (snd (handle_voice_stream reference_env client [audio_frame [Byte.x01]] idle)))
       ++ map Some [[Byte.x02]; [Byte.x03]].
Proof.
  split; [repeat split; reflexivity|].
  apply (stop_recording_keeps_forwarding reference_env client
           [audio_frame [Byte.x01]] stop_recording_text
           [(str "type", Json.Str (str "stop_recording"))]
           [[Byte.x02]; [Byte.x03]] idle);
    reflexivity.
Defined.

(** C2, as stated, fails: a text frame that is not JSON ends the relay
    loop and the handler; the audio frame behind it is never forwarded. *)
Lemma decode_failure_ends_the_handler :
  json_loads reference_env (str "oops") = Err JSONDecodeError
  /\ fst (handle_voice_stream reference_env client [] idle) = Suspended
  /\ fst (handle_voice_stream reference_env client
            [text_frame (str "oops"); audio_frame [Byte.x01]] idle) = Return tt
  /\ forwarded
       (calls (snd (handle_voice_stream reference_env client
                      [text_frame (str "oops"); audio_frame [Byte.x01]] idle))) = [].
Proof. repeat split; reflexivity. Qed.

(** C2, amended.  While the handler waits for the client: a text frame
    that decodes to a JSON object whose type is not [stop_recording] is
    ignored, the run goes on as if the frame had not been sent; a text
    frame that does not decode, or decodes to something that is not an
    object, raises out of the relay loop: the handler logs the error and
    returns, and nothing that arrives later is read or forwarded. *)
Theorem text_frame_ignored_or_fatal
    (env : Env) (websocket : WebSocket) (pre : list (res Message))
    (t : pystr) (more : list (res Message)) (s : state) :
  fst (handle_voice_stream env websocket pre s) = Suspended ->
  let before := snd (handle_voice_stream env websocket pre s) in
  let r := handle_voice_stream env websocket (pre ++ text_frame t :: more) s in
  (forall members,
      json_loads env t = Ok (Json.Object members) ->
      Json.eq_str (Json.get members (str "type")) "stop_recording" = false ->
      r = handle_voice_stream env websocket (pre ++ more) s)
  /\ (json_loads env t = Err JSONDecodeError
      \/ (exists v, json_loads env t = Ok v /\ is_object v = false) ->
      fst r = Return tt
      /\ In (Log ERROR "Voice stream error: {e}") (new_calls before (snd r))
      /\ forwarded (new_calls before (snd r)) = []
      /\ r = handle_voice_stream env websocket (pre ++ [text_frame t]) s).
Proof.
  intros Hwait. simpl.
  destruct (handle_voice_stream_resume env websocket pre (text_frame t :: more) s Hwait)
    as [_ [[d [_ Hbefore]] Hrun]].
  split.
  - intros members Hjson Htype.
    destruct (handle_voice_stream_resume env websocket pre more s Hwait)
      as [_ [_ Hmore]].
    rewrite Hrun, Hmore, (relay_loop_text_object env t members _ _ Hjson), Htype.
    now rewrite add_calls_nil.
  - intros Hfail.
    destruct (handle_voice_stream_resume env websocket pre [text_frame t] s Hwait)
      as [_ [_ Hone]].
    destruct (relay_loop_text_failure env t Hfail) as [e [Hx [Hc Hraise]]].
    rewrite Hrun, Hone, !Hraise.
    clear Hrun Hone. rewrite Hbefore. unfold conclude.
    rewrite new_calls_add_calls.
    unfold except_outcome, except_calls. rewrite Hx, Hc. cbn [orb fst snd].
    rewrite new_calls_started_ended.
    repeat split; simpl; tauto.
Qed.

Lemma text_frame_ignored_or_fatal_witness :
  fst (handle_voice_stream reference_env client [audio_frame [Byte.x01]] idle) = Suspended
  /\ (json_loads reference_env (str "{}") = Ok (Json.Object [])
      /\ handle_voice_stream reference_env client
           ([audio_frame [Byte.x01]] ++ text_frame (str "{}") :: [audio_frame [Byte.x02]]) idle
         = handle_voice_stream reference_env client
             ([audio_frame [Byte.x01]] ++ [audio_frame [Byte.x02]]) idle)
  /\ (json_loads reference_env (str "[1, 2]") = Ok (Json.Array [Json.Int 1; Json.Int 2])
      /\ fst (handle_voice_stream reference_env client
                ([audio_frame [Byte.x01]] ++ text_frame (str "[1, 2]") :: [audio_frame [Byte.x02]])
                idle) = Return tt).
Proof.
  split; [reflexivity|]. split; (split; [reflexivity|]).
  - apply (proj1 (text_frame_ignored_or_fatal reference_env client
                    [audio_frame [Byte.x01]] (str "{}") [audio_frame [Byte.x02]] idle
                    eq_refl) []); reflexivity.
  - apply (proj2 (text_frame_ignored_or_fatal reference_env client
                    [audio_frame [Byte.x01]] (str "[1, 2]") [audio_frame [Byte.x02]] idle
                    eq_refl)).
    right. exists (Json.Array [Json.Int 1; Json.Int 2]). split; reflexivity.
Defined.

(** C3, as stated, fails: when the client disconnects the sentinel is put
    on the queue while [finish] has not been called yet; [finish] comes
    two calls later. *)
Lemma sentinel_pushed_before_finish :
  new_calls idle (snd (handle_voice_stream reference_env client [disconnect] idle))
  = startup_calls
    ++ [Log INFO "Client disconnected.";
        QueuePut None; CancelTask SendTask; DgFinish;
        Log INFO "Deepgram connection finished.";
        CancelTask KeepaliveTask;
        Log INFO "Voice stream handler for {connection_id} finished."]
  /\ filter is_finish
       (before_sentinel
          (new_calls idle
             (snd (handle_voice_stream reference_env client [disconnect] idle)))) = [].
Proof. split; reflexivity. Qed.

(** C3, amended.  When the relay loop ends on a disconnect message, the
    handler returns after the shutdown, in which the sentinel is put on
    the queue exactly once and [finish] is called exactly once, the
    sentinel first, then the cancellation of the consumer task, then
    [finish]; the consumer leaves its loop when it pops the sentinel. *)
Theorem sentinel_once_then_finish
    (env : Env) (websocket : WebSocket) (pre more : list (res Message)) (s : state) :
  fst (handle_voice_stream env websocket pre s) = Suspended ->
  let r := handle_voice_stream env websocket (pre ++ disconnect :: more) s in
  let d := new_calls s (snd r) in
  fst r = Return tt
  /\ (exists a b,
         d = a ++ QueuePut None :: CancelTask SendTask :: DgFinish :: b
         /\ filter is_sentinel_put a = [] /\ filter is_finish a = []
         /\ filter is_sentinel_put b = [] /\ filter is_finish b = [])
  /\ length (filter is_sentinel_put d) = 1%nat
  /\ length (filter is_finish d) = 1%nat
  /\ message_queue (snd r) = [None]
  /\ (forall rest s',
         send_task_from env (None :: rest) s'
         = (Return tt, set_message_queue (fun _ => rest) s')).
Proof.
  intros Hwait. simpl.
  destruct (handle_voice_stream_resume env websocket pre (disconnect :: more) s Hwait)
    as [_ [[d [Hd Hbefore]] Hrun]].
  rewrite Hrun, relay_loop_disconnect, Hbefore. unfold conclude.
  rewrite add_calls_app, new_calls_add_calls. cbn [fst snd].
  rewrite new_calls_ended.
  destruct (relay_calls_no_sentinel d Hd) as [Hs [Hf _]].
  split; [reflexivity|]. split.
  { exists (startup_calls ++ d ++ [Log INFO "Client disconnected."]),
      [Log INFO "Deepgram connection finished.";
       CancelTask KeepaliveTask;
       Log INFO "Voice stream handler for {connection_id} finished."].
    rewrite !filter_app, Hs, Hf. repeat split; reflexivity. }
  rewrite !filter_app, Hs, Hf. repeat split; reflexivity.
Qed.

Lemma sentinel_once_then_finish_witness :
  fst (handle_voice_stream reference_env client [audio_frame [Byte.x01]] idle) = Suspended
  /\ length
       (filter is_sentinel_put
          (new_calls idle
             (snd (handle_voice_stream reference_env client
                     ([audio_frame [Byte.x01]] ++ disconnect :: []) idle)))) = 1%nat.
Proof.
  split; [reflexivity|].
  apply (sentinel_once_then_finish reference_env client [audio_frame [Byte.x01]] [] idle).
  reflexivity.
Defined.

(** C1: the handler can return without having called [finish].  A text
    frame that is not JSON raises out of the relay loop of a started
    session; the cleanup after the loop, which holds the only call of
    [finish], is skipped, while the [finally] block still cancels the
    keepalive task and removes the connection. *)
Lemma finish_skipped_when_loop_raises :
  deepgram_start reference_env = Ok true
  /\ json_loads reference_env (str "oops") = Err JSONDecodeError
  /\ handle_voice_stream reference_env client [text_frame (str "oops")] idle
     = (Return tt,
        {| active_connections := ∅;
           message_queue := [];
           keepalive_task_handle := true;
           calls := startup_calls
                    ++ [Log ERROR "Voice stream error: {e}";
                        CancelTask KeepaliveTask;
                        Log INFO "Voice stream handler for {connection_id} finished."] |})
  /\ length
       (filter is_finish
          (calls (snd (handle_voice_stream reference_env client
                         [text_frame (str "oops")] idle)))) = 0%nat.
Proof. repeat split; reflexivity. Qed.

(** C4: on [{"type": "stop_recording"}] the relay loop writes a log line
    and calls nothing on the provider connection; the only provider calls
    of the run are those of the startup and the [finish] of the
    shutdown. *)
Lemma stop_recording_calls_nothing_upstream :
  json_loads reference_env stop_recording_text
  = Ok (Json.Object [(str "type", Json.Str (str "stop_recording"))])
  /\ new_calls
       (snd (handle_voice_stream reference_env client [] idle))
       (snd (handle_voice_stream reference_env client [text_frame stop_recording_text] idle))
     = [Log INFO "Stop recording signal received from client."]
  /\ filter is_provider_call
       (calls (snd (handle_voice_stream reference_env client
                      [text_frame stop_recording_text; disconnect] idle)))
     = [DgNew; DgOn "Transcript"; DgOn "Error"; DgStart; DgFinish].
Proof. repeat split; reflexivity. Qed.

(* ===================================================================== *)
(** ** The consumer                                                       *)
(* ===================================================================== *)

(** The transcript messages sent for a result that has a channel with at
    least one alternative. *)
Lemma process_deepgram_message_transcripts
    (env : Env) (data : ProviderObject) (channel : Channel)
    (alt : Alternative) (alts : list Alternative) (s : state) :
  attr_channel data = Some (Some channel) ->
  alternatives channel = alt :: alts ->
  filter (has_type "transcript")
    (sent (new_calls s (snd (process_deepgram_message env data s))))
  = match strip (transcript alt) with
    | [] => []
    | _ :: _ =>
        [[("type"%string, VStr (str "transcript"));
          ("text"%string, VStr (transcript alt));
          ("confidence"%string, confidence alt);
          ("is_final"%string,
           match negb (truthy (getattr (attr_is_final data) (VBool false))),
                 attr_metadata data with
           | true, Some (Some metadata) =>
               getattr (metadata_is_final metadata) (VBool false)
           | _, _ => getattr (attr_is_final data) (VBool false)
           end);
          ("timestamp"%string, getattr (attr_start data) (VInt 0))]]
    end.
Proof.
  intros Hch Halt.
  unfold process_deepgram_message, try_except, send_json. step.
  rewrite Hch, Halt. step.
  set (is_final := match negb (truthy (getattr (attr_is_final data) (VBool false))),
                         attr_metadata data with
                   | true, Some (Some metadata) =>
                       getattr (metadata_is_final metadata) (VBool false)
                   | _, _ => getattr (attr_is_final data) (VBool false)
                   end).
  destruct (strip (transcript alt)) as [|c r]; crunch; flatten_calls; reflexivity.
Qed.

(** Every message the consumer sends is a transcript, an utterance end or
    a speech final. *)
Lemma process_deepgram_message_kinds
    (env : Env) (data : ProviderObject) (s : state) (m : pydict) :
  In m (sent (new_calls s (snd (process_deepgram_message env data s)))) ->
  has_type "transcript" m || has_type "utterance_end" m || has_type "speech_final" m
  = true.
Proof.
  unfold process_deepgram_message, try_except, send_json. step.
  destruct (attr_channel data) as [[channel|]|]; step;
    try destruct (alternatives channel) as [|alt alts]; step;
    try destruct (strip (transcript alt)) as [|c r];
    crunch; flatten_calls; intros H;
    repeat (destruct H as [<- | H]; [reflexivity|]); destruct H.
Qed.

(** An object without a usable channel whose type is neither
    [UtteranceEnd] nor [SpeechFinal] is logged by the consumer, nothing
    more. *)
Lemma process_deepgram_message_other
    (env : Env) (data : ProviderObject) (s : state) :
  has_channel data = false ->
  type_is data "UtteranceEnd" = false ->
  type_is data "SpeechFinal" = false ->
  process_deepgram_message env data s
  = (Return tt,
     add_calls
       [Log INFO "Processing Deepgram message: {type(data)} - {str(data)[:200]}..."] s).
Proof.
  unfold has_channel, type_is, process_deepgram_message, try_except, send_json.
  intros Hch Hu Hs. step.
  destruct (attr_channel data) as [[channel|]|]; try discriminate; step;
    destruct (attr_type data) as [t|]; step; rewrite ?Hu, ?Hs; step;
    flatten_calls; reflexivity.
Qed.

(** C6, as stated, fails: the provider's error report is logged and
    queued, and the consumer, which takes it from the queue, sends the
    client nothing. *)
Lemma provider_error_reaches_no_client :
  calls (snd (send_task reference_env (snd (on_error provider_error idle))))
  = [Log ERROR "Deepgram error: {error}";
     QueuePut (Some provider_error);
     Log INFO "Processing Deepgram message: {type(data)} - {str(data)[:200]}..."]
  /\ sent (calls (snd (send_task reference_env (snd (on_error provider_error idle))))) = [].
Proof. split; reflexivity. Qed.

(** C6, amended.  An error reported by the provider is logged and put on
    the queue, and [on_error] returns; the consumer logs the object and
    goes on with the rest of the queue without sending anything for it;
    no message of type [error] is ever sent to the client. *)
Theorem provider_error_logged_and_queued_only
    (env : Env) (error : ProviderObject) (rest : list item) (s : state) :
  has_channel error = false ->
  type_is error "UtteranceEnd" = false ->
  type_is error "SpeechFinal" = false ->
  on_error error s
  = (Return tt,
     set_message_queue (fun q => q ++ [Some error])
       (add_calls [Log ERROR "Deepgram error: {error}"; QueuePut (Some error)] s))
  /\ send_task_from env (Some error :: rest) s
     = send_task_from env rest
         (add_calls
            [Log INFO "Processing Deepgram message: {type(data)} - {str(data)[:200]}..."]
            (set_message_queue (fun _ => rest) s))
  /\ (forall data s0 m,
         In m (sent (new_calls s0 (snd (process_deepgram_message env data s0)))) ->
         has_type "error" m = false).
Proof.
  intros Hch Hu Hs. split; [|split].
  - unfold on_error, queue_put. step. f_equal.
    apply state_eq; simpl; try reflexivity. now rewrite <- app_assoc.
  - simpl. unfold bind at 1. unfold modify at 1. unfold bind at 1.
    rewrite (process_deepgram_message_other env error _ Hch Hu Hs). reflexivity.
  - intros data s0 m Hm.
    pose proof (process_deepgram_message_kinds env data s0 m Hm) as Hk.
    unfold has_type in *. destruct (dict_get m "type") as [v|]; [|reflexivity].
    destruct v as [| | | |t]; try reflexivity.
    unfold Py.eq_str in *.
    destruct (pystr_eqb t (str "error")) eqn:He; [|reflexivity].
    apply pystr_eqb_eq in He. subst t. discriminate Hk.
Qed.

Lemma provider_error_logged_and_queued_only_witness :
  (has_channel provider_error = false
   /\ type_is provider_error "UtteranceEnd" = false
   /\ type_is provider_error "SpeechFinal" = false)
  /\ send_task_from reference_env [Some provider_error; None] idle
     = send_task_from reference_env [None]
         (add_calls
            [Log INFO "Processing Deepgram message: {type(data)} - {str(data)[:200]}..."]
            (set_message_queue (fun _ => [None]) idle)).
Proof.
  split; [repeat split; reflexivity|].
  apply (provider_error_logged_and_queued_only reference_env provider_error [None] idle);
    reflexivity.
Defined.

(** C7, as stated, fails on the flag: for an interim result whose own
    [is_final] is false and whose metadata carries a true one, the one
    transcript message sent says [is_final] true. *)
Lemma transcript_flag_differs_from_event_flag :
  attr_is_final interim_hello = Some (VBool false)
  /\ sent (calls (snd (process_deepgram_message reference_env interim_hello idle)))
     = [[("type"%string, VStr (str "transcript"));
         ("text"%string, VStr (str "hello"));
         ("confidence"%string, VFloat (9 # 10));
         ("is_final"%string, VBool true);
         ("timestamp"%string, VFloat (3 # 2))]].
Proof. split; reflexivity. Qed.

(** C7, amended.  For a result with a channel and a first alternative: if
    the alternative's text is empty or white space only, no transcript
    message is sent; otherwise exactly one is sent, with that text, and
    its [is_final] is the result's own flag whenever that flag is true or
    the result has no metadata object; when the own flag is absent or not
    true and there is a metadata object, [is_final] is taken from the
    metadata (false when the metadata has no flag). *)
Theorem transcript_sent_unless_blank
    (env : Env) (data : ProviderObject) (channel : Channel)
    (alt : Alternative) (alts : list Alternative) (s : state) :
  attr_channel data = Some (Some channel) ->
  alternatives channel = alt :: alts ->
  let out := filter (has_type "transcript")
               (sent (new_calls s (snd (process_deepgram_message env data s)))) in
  let own := getattr (attr_is_final data) (VBool false) in
  (forallb isspace (transcript alt) = true -> out = [])
  /\ (forallb isspace (transcript alt) = false ->
      exists m,
        out = [m]
        /\ dict_get m "text" = Some (VStr (transcript alt))
        /\ dict_get m "confidence" = Some (confidence alt)
        /\ (truthy own = true \/ has_metadata data = false ->
            dict_get m "is_final" = Some own)
        /\ (forall metadata,
               truthy own = false ->
               attr_metadata data = Some (Some metadata) ->
               dict_get m "is_final"
               = Some (getattr (metadata_is_final metadata) (VBool false)))).
Proof.
  intros Hch Halt. simpl.
  rewrite (process_deepgram_message_transcripts env data channel alt alts s Hch Halt).
  split.
  - intros Hblank. apply strip_nil_iff in Hblank. now rewrite Hblank.
  - intros Htext.
    destruct (strip (transcript alt)) as [|c r] eqn:Hstrip.
    { apply strip_nil_iff in Hstrip. congruence. }
    eexists. split; [reflexivity|]. split; [reflexivity|]. split; [reflexivity|].
    split.
    + unfold has_metadata. intros [Hown | Hmeta]; simpl.
      * now rewrite Hown.
      * destruct (attr_metadata data) as [[md|]|]; try discriminate;
          destruct (truthy _); reflexivity.
    + intros metadata Hown Hmeta. simpl. now rewrite Hown, Hmeta.
Qed.

Lemma transcript_sent_unless_blank_witness :
  (attr_channel interim_ok
   = Some (Some {| alternatives :=
                     [{| transcript := str " ok"; confidence := VFloat (1 # 2) |}] |})
   /\ alternatives
        {| alternatives := [{| transcript := str " ok"; confidence := VFloat (1 # 2) |}] |}
      = [{| transcript := str " ok"; confidence := VFloat (1 # 2) |}]
   /\ forallb isspace (str " ok") = false
   /\ truthy (getattr (attr_is_final interim_ok) (VBool false)) = false
   /\ attr_metadata interim_ok = Some (Some {| metadata_is_final := Some (VBool true) |}))
  /\ exists m,
       filter (has_type "transcript")
         (sent (new_calls idle
                  (snd (process_deepgram_message reference_env interim_ok idle)))) = [m]
       /\ dict_get m "text" = Some (VStr (str " ok"))
       /\ dict_get m "confidence" = Some (VFloat (1 # 2))
       /\ dict_get m "is_final" = Some (VBool true).
Proof.
  split; [repeat split; reflexivity|].
  destruct (proj2 (transcript_sent_unless_blank reference_env interim_ok
                     {| alternatives :=
                          [{| transcript := str " ok"; confidence := VFloat (1 # 2) |}] |}
                     {| transcript := str " ok"; confidence := VFloat (1 # 2) |} [] idle
                     eq_refl eq_refl) eq_refl)
    as [m [Hout [Htext [Hconf [_ Hmeta]]]]].
  exists m. split; [exact Hout|]. split; [exact Htext|]. split; [exact Hconf|].
  exact (Hmeta {| metadata_is_final := Some (VBool true) |} eq_refl eq_refl).
Defined.

(** C8, as stated, fails: the own flag of [interim_ok] is present and
    false, its metadata flag is true, and the message sent says
    [is_final] true. *)
Lemma present_false_flag_overridden_by_metadata :
  attr_is_final interim_ok = Some (VBool false)
  /\ attr_metadata interim_ok = Some (Some {| metadata_is_final := Some (VBool true) |})
  /\ map (fun m => dict_get m "is_final")
       (sent (calls (snd (process_deepgram_message reference_env interim_ok idle))))
     = [Some (VBool true)].
Proof. repeat split; reflexivity. Qed.

(** C8, amended.  In a transcript message, [is_final] is the result's own
    flag when that flag is present and true.  When the own flag is absent
    or not true, the metadata object decides if there is one: the value is
    its [is_final], or false when it has none; without a metadata object
    the value is the own flag, or false when the result has none. *)
Theorem is_final_from_own_flag_else_metadata
    (env : Env) (data : ProviderObject) (channel : Channel)
    (alt : Alternative) (alts : list Alternative) (s : state) (m : pydict) :
  attr_channel data = Some (Some channel) ->
  alternatives channel = alt :: alts ->
  In m (filter (has_type "transcript")
          (sent (new_calls s (snd (process_deepgram_message env data s))))) ->
  (forall v, attr_is_final data = Some v -> truthy v = true ->
             dict_get m "is_final" = Some v)
  /\ (forall metadata,
         attr_is_final data = None
         \/ (exists v, attr_is_final data = Some v /\ truthy v = false) ->
         attr_metadata data = Some (Some metadata) ->
         dict_get m "is_final" = Some (getattr (metadata_is_final metadata) (VBool false)))
  /\ (has_metadata data = false ->
      dict_get m "is_final" = Some (getattr (attr_is_final data) (VBool false))).
Proof.
  intros Hch Halt.
  rewrite (process_deepgram_message_transcripts env data channel alt alts s Hch Halt).
  destruct (strip (transcript alt)) as [|c r]; [intros []|].
  intros [<- | []]. simpl. split; [|split].
  - intros v Hv Ht. rewrite Hv. simpl. now rewrite Ht.
  - intros metadata Hown Hmeta. rewrite Hmeta.
    destruct Hown as [Hnone | [v [Hv Ht]]].
    + rewrite Hnone. reflexivity.
    + rewrite Hv. simpl. now rewrite Ht.
  - unfold has_metadata. intros Hmeta.
    destruct (attr_metadata data) as [[md|]|]; try discriminate;
      destruct (truthy _); reflexivity.
Qed.

Lemma is_final_from_own_flag_else_metadata_witness :
  (attr_channel interim_hello
   = Some (Some {| alternatives :=
                     [{| transcript := str "hello"; confidence := VFloat (9 # 10) |}] |})
   /\ alternatives
        {| alternatives := [{| transcript := str "hello"; confidence := VFloat (9 # 10) |}] |}
      = [{| transcript := str "hello"; confidence := VFloat (9 # 10) |}]
   /\ In [("type"%string, VStr (str "transcript"));
          ("text"%string, VStr (str "hello"));
          ("confidence"%string, VFloat (9 # 10));
          ("is_final"%string, VBool true);
          ("timestamp"%string, VFloat (3 # 2))]
        (filter (has_type "transcript")
           (sent (new_calls idle
                    (snd (process_deepgram_message reference_env interim_hello idle))))))
  /\ (forall metadata,
         attr_is_final interim_hello = None
         \/ (exists v, attr_is_final interim_hello = Some v /\ truthy v = false) ->
         attr_metadata interim_hello = Some (Some metadata) ->
         dict_get [("type"%string, VStr (str "transcript"));
                   ("text"%string, VStr (str "hello"));
                   ("confidence"%string, VFloat (9 # 10));
                   ("is_final"%string, VBool true);
                   ("timestamp"%string, VFloat (3 # 2))] "is_final"
         = Some (getattr (metadata_is_final metadata) (VBool false))).
Proof.
  split; [repeat split; try reflexivity; left; reflexivity|].
  apply (is_final_from_own_flag_else_metadata reference_env interim_hello
           {| alternatives := [{| transcript := str "hello"; confidence := VFloat (9 # 10) |}] |}
           {| transcript := str "hello"; confidence := VFloat (9 # 10) |} [] idle
           [("type"%string, VStr (str "transcript"));
            ("text"%string, VStr (str "hello"));
            ("confidence"%string, VFloat (9 # 10));
            ("is_final"%string, VBool true);
            ("timestamp"%string, VFloat (3 # 2))]);
    try reflexivity.
  left; reflexivity.
Defined.

(* ===================================================================== *)
(** ** Further properties of the handler                                  *)
(* ===================================================================== *)

Lemma add_calls_inj (d d' : list call) (s : state) :
  add_calls d s = add_calls d' s -> d = d'.
Proof.
  unfold add_calls. intros H. injection H as H. now apply app_inv_head in H.
Qed.

Lemma count_calls_app (p : call -> bool) (a b : list call) :
  count_calls p (a ++ b) = (count_calls p a + count_calls p b)%nat.
Proof. unfold count_calls. now rewrite filter_app, length_app. Qed.

(** The calls of a run of a started session, by the way the loop ends. *)
Lemma handle_voice_stream_new_calls
    (env : Env) (websocket : WebSocket) (inbox : list (res Message)) (s : state) :
  deepgram_start env = Ok true ->
  exists d,
    forallb is_relay_call d = true
    /\ snd (relay_loop env inbox (started websocket s)) = add_calls d (started websocket s)
    /\ fst (handle_voice_stream env websocket inbox s)
       = match fst (relay_loop env inbox (started websocket s)) with
         | Raise e => except_outcome e
         | o => o
         end
    /\ new_calls s (snd (handle_voice_stream env websocket inbox s))
       = startup_calls ++ d
         ++ match fst (relay_loop env inbox (started websocket s)) with
            | Suspended => []
            | Return _ => cleanup_calls ++ finally_calls
            | Raise e => except_calls e ++ finally_calls
            end.
Proof.
  intros Hstart.
  destruct (handle_voice_stream_started env websocket inbox s Hstart) as [d [Hf [Hd Hrun]]].
  exists d. split; [exact Hf|]. split; [exact Hd|]. rewrite Hrun.
  destruct (fst (relay_loop env inbox (started websocket s))) as [[]|e|]; simpl;
    rewrite ?new_calls_ended, ?new_calls_started, ?app_nil_r; split; reflexivity.
Qed.

(** X1.  Once the handler has returned or raised, nothing that the client
    sends afterwards is read: the run is the same with and without the
    later messages. *)
Theorem handler_reads_nothing_after_exit
    (env : Env) (websocket : WebSocket) (pre ext : list (res Message)) (s : state) :
  fst (handle_voice_stream env websocket pre s) <> Suspended ->
  handle_voice_stream env websocket (pre ++ ext) s
  = handle_voice_stream env websocket pre s.
Proof.
  intros Hdone. destruct (deepgram_start env) as [[|]|e] eqn:Hstart.
  - rewrite !handle_voice_stream_conclude in * by exact Hstart.
    rewrite relay_loop_app.
    destruct (relay_loop env pre (started websocket s)) as [[[]|e|] s']; try reflexivity.
    now contradiction Hdone.
  - rewrite !handle_voice_stream_not_started by (left; exact Hstart). reflexivity.
  - rewrite !handle_voice_stream_not_started by (right; eauto). reflexivity.
Qed.

Lemma handler_reads_nothing_after_exit_witness :
  fst (handle_voice_stream reference_env client [audio_frame [Byte.x01]; disconnect] idle)
  <> Suspended
  /\ handle_voice_stream reference_env client
       ([audio_frame [Byte.x01]; disconnect] ++ [audio_frame [Byte.x02]]) idle
     = handle_voice_stream reference_env client [audio_frame [Byte.x01]; disconnect] idle.
Proof.
  split; [discriminate|].
  apply (handler_reads_nothing_after_exit reference_env client
           [audio_frame [Byte.x01]; disconnect] [audio_frame [Byte.x02]] idle).
  discriminate.
Defined.

(** X2.  No exception that derives from [Exception] leaves the handler:
    what it raises, if anything, is a cancellation. *)
Theorem handler_raises_only_cancellation
    (env : Env) (websocket : WebSocket) (inbox : list (res Message)) (s : state) (e : exn) :
  fst (handle_voice_stream env websocket inbox s) = Raise e ->
  e = CancelledError.
Proof.
  assert (Hout : forall x, except_outcome x = Raise e -> e = CancelledError).
  { intros x. unfold except_outcome. destruct x; simpl; congruence. }
  destruct (deepgram_start env) as [[|]|x] eqn:Hstart.
  - rewrite handle_voice_stream_conclude by exact Hstart.
    destruct (relay_loop env inbox (started websocket s)) as [[[]|x|] s']; simpl;
      try discriminate. apply Hout.
  - rewrite handle_voice_stream_not_started by (left; exact Hstart).
    rewrite Hstart. discriminate.
  - rewrite handle_voice_stream_not_started by (right; eauto).
    rewrite Hstart. apply Hout.
Qed.

Lemma handler_raises_only_cancellation_witness :
  fst (handle_voice_stream reference_env client
         [audio_frame [Byte.x01]; Err CancelledError] idle) = Raise CancelledError
  /\ CancelledError = CancelledError.
Proof.
  split; [reflexivity|].
  apply (handler_raises_only_cancellation reference_env client
           [audio_frame [Byte.x01]; Err CancelledError] idle CancelledError).
  reflexivity.
Defined.

Section RelayReads.

Variable env : Env.

Lemma forwarded_relay_loop (inbox : list (res Message)) (s : state) :
  exists d, snd (relay_loop env inbox s) = add_calls d s
            /\ forwarded d = omap bytes_value (while_relaying env inbox).
Proof.
  revert s. induction inbox as [|received rest IH]; intros s.
  - exists []. simpl. now rewrite add_calls_nil.
  - simpl. destruct received as [message|e]; step.
    2:{ exists []. now rewrite add_calls_nil. }
    destruct (pystr_eqb (msg_type message) (str "websocket.disconnect")).
    { eexists. split; reflexivity. }
    destruct (msg_bytes message) as [payload|] eqn:Hbytes.
    { destruct (IH (add_calls [DgSend payload] s)) as [d [Hd Hf]].
      exists (DgSend payload :: d). rewrite Hd, add_calls_app.
      split; [reflexivity|]. simpl. rewrite Hbytes, Hf. reflexivity. }
    destruct (msg_text message) as [[t|]|]; step.
    + destruct (json_loads env t) as [data|e]; step.
      2:{ exists []. now rewrite add_calls_nil. }
      destruct data; step; try (exists []; now rewrite add_calls_nil).
      destruct (Json.eq_str _ _); step.
      * destruct (IH (add_calls [Log INFO "Stop recording signal received from client."] s))
          as [d [Hd Hf]].
        eexists (_ :: d). rewrite Hd, add_calls_app.
        split; [reflexivity|]. simpl. rewrite Hbytes, Hf. reflexivity.
      * destruct (IH s) as [d [Hd Hf]]. exists d. split; [exact Hd|].
        simpl. rewrite Hbytes. exact Hf.
    + exists []. now rewrite add_calls_nil.
    + destruct (IH s) as [d [Hd Hf]]. exists d. split; [exact Hd|].
      simpl. rewrite Hbytes. exact Hf.
Qed.

End RelayReads.

(** X3.  In a started session the payloads handed to the provider
    connection are exactly the values under ["bytes"] of the messages
    handled before the loop ends, each once and in the order of receipt;
    the message that ends the loop, and the startup and shutdown, forward
    nothing. *)
Theorem forwarded_is_what_was_received
    (env : Env) (websocket : WebSocket) (inbox : list (res Message)) (s : state) :
  deepgram_start env = Ok true ->
  forwarded (new_calls s (snd (handle_voice_stream env websocket inbox s)))
  = omap bytes_value (while_relaying env inbox).
Proof.
  intros Hstart.
  destruct (handle_voice_stream_new_calls env websocket inbox s Hstart)
    as [d [_ [Hd [_ Hcalls]]]].
  destruct (forwarded_relay_loop env inbox (started websocket s)) as [d' [Hd' Hf]].
  rewrite Hd in Hd'. apply add_calls_inj in Hd'. subst d'.
  rewrite Hcalls, !forwarded_app, Hf.
  replace (forwarded startup_calls) with (@nil (option bytes)) by reflexivity.
  destruct (fst (relay_loop env inbox (started websocket s))) as [[]|e|].
  - simpl. now rewrite app_nil_r.
  - rewrite forwarded_app. unfold except_calls.
    destruct (is_ConnectionClosedOK e), (is_Exception e); simpl; now rewrite app_nil_r.
  - simpl. now rewrite app_nil_r.
Qed.

Lemma forwarded_is_what_was_received_witness :
  deepgram_start reference_env = Ok true
  /\ forwarded
       (new_calls idle
          (snd (handle_voice_stream reference_env client
                  [audio_frame [Byte.x01]; text_frame (str "{}"); audio_frame [Byte.x02];
                   disconnect; audio_frame [Byte.x03]] idle)))
     = omap bytes_value
         (while_relaying reference_env
            [audio_frame [Byte.x01]; text_frame (str "{}"); audio_frame [Byte.x02];
             disconnect; audio_frame [Byte.x03]]).
Proof.
  split; [reflexivity|].
  apply (forwarded_is_what_was_received reference_env client
           [audio_frame [Byte.x01]; text_frame (str "{}"); audio_frame [Byte.x02];
            disconnect; audio_frame [Byte.x03]] idle).
  reflexivity.
Defined.

(** X4.  The key ["bytes"] is looked for before the key ["text"]: a
    message that has it is forwarded, whatever the value, and its text is
    never decoded; the run is the one of the same message without its
    text. *)
Theorem bytes_key_hides_text
    (env : Env) (websocket : WebSocket) (pre more : list (res Message))
    (message : Message) (payload : option bytes) (s : state) :
  fst (handle_voice_stream env websocket pre s) = Suspended ->
  pystr_eqb (msg_type message) (str "websocket.disconnect") = false ->
  msg_bytes message = Some payload ->
  handle_voice_stream env websocket (pre ++ Ok message :: more) s
  = handle_voice_stream env websocket
      (pre ++ Ok {| msg_type := msg_type message;
                    msg_bytes := Some payload;
                    msg_text := None |} :: more) s
  /\ new_calls (snd (handle_voice_stream env websocket pre s))
       (snd (handle_voice_stream env websocket (pre ++ [Ok message]) s))
     = [DgSend payload]
  /\ fst (handle_voice_stream env websocket (pre ++ [Ok message]) s) = Suspended.
Proof.
  intros Hwait Htype Hbytes.
  destruct (handle_voice_stream_resume env websocket pre (Ok message :: more) s Hwait)
    as [_ [_ H1]].
  destruct (handle_voice_stream_resume env websocket pre
              (Ok {| msg_type := msg_type message; msg_bytes := Some payload;
                     msg_text := None |} :: more) s Hwait) as [_ [_ H2]].
  destruct (handle_voice_stream_resume env websocket pre [Ok message] s Hwait)
    as [_ [_ H3]].
  rewrite H1, H2, H3. simpl. step. rewrite Htype, Hbytes. simpl.
  rewrite new_calls_add_calls. repeat split; reflexivity.
Qed.

Lemma bytes_key_hides_text_witness :
  (fst (handle_voice_stream reference_env client [] idle) = Suspended
   /\ pystr_eqb (str "websocket.receive") (str "websocket.disconnect") = false)
  /\ new_calls (snd (handle_voice_stream reference_env client [] idle))
       (snd (handle_voice_stream reference_env client
               ([] ++ [Ok {| msg_type := str "websocket.receive";
                             msg_bytes := Some None;
                             msg_text := Some (Some (str "oops")) |}]) idle))
     = [DgSend None].
Proof.
  split; [split; reflexivity|].
  apply (bytes_key_hides_text reference_env client [] []
           {| msg_type := str "websocket.receive";
              msg_bytes := Some None;
              msg_text := Some (Some (str "oops")) |} None idle);
    reflexivity.
Defined.

Lemma relay_calls_counts (d : list call) :
  forallb is_relay_call d = true ->
  count_calls is_sentinel_put d = 0%nat /\ count_calls is_finish d = 0%nat
  /\ (forall t, count_calls (is_cancel_of t) d = 0%nat)
  /\ (forall t, count_calls (is_create_of t) d = 0%nat).
Proof.
  unfold count_calls.
  induction d as [|c d IH]; simpl; [now repeat split|].
  intros H. apply andb_true_iff in H as [Hc Hd].
  destruct (IH Hd) as [H1 [H2 [H3 H4]]].
  destruct c as [[]| | | | | | | | |]; simpl in *; try discriminate;
    repeat split; try assumption; intros []; simpl; auto.
Qed.

Ltac solve_counts :=
  repeat split; try reflexivity; try discriminate; try (cbv; lia);
  try (let H := fresh in intros H; cbv in H; first [discriminate | lia]);
  try (intros; discriminate).

(** X5.  The keepalive task is created at most once, and a handler that
    has returned or raised has cancelled it as often as it created it;
    while the handler waits in its loop the task runs, created and not
    cancelled. *)
Theorem keepalive_task_cancelled_on_every_exit
    (env : Env) (websocket : WebSocket) (inbox : list (res Message)) (s : state) :
  let r := handle_voice_stream env websocket inbox s in
  let d := new_calls s (snd r) in
  match fst r with
  | Suspended =>
      count_calls (is_create_of KeepaliveTask) d = 1%nat
      /\ count_calls (is_cancel_of KeepaliveTask) d = 0%nat
  | _ =>
      count_calls (is_cancel_of KeepaliveTask) d = count_calls (is_create_of KeepaliveTask) d
      /\ (count_calls (is_create_of KeepaliveTask) d <= 1)%nat
  end.
Proof.
  simpl. destruct (deepgram_start env) as [[|]|e] eqn:Hstart.
  - destruct (handle_voice_stream_new_calls env websocket inbox s Hstart)
      as [d [Hf [_ [Hout Hcalls]]]].
    destruct (relay_calls_counts d Hf) as [_ [_ [Hcancel Hcreate]]].
    rewrite Hout, Hcalls, !count_calls_app, Hcancel, Hcreate.
    destruct (fst (relay_loop env inbox (started websocket s))) as [[]|x|].
    + solve_counts.
    + rewrite !count_calls_app. unfold except_outcome, except_calls.
      destruct (is_ConnectionClosedOK x), (is_Exception x); simpl;
        solve_counts.
    + solve_counts.
  - rewrite handle_voice_stream_not_started by (left; exact Hstart).
    rewrite Hstart. unfold new_calls. simpl. rewrite drop_app_length.
    solve_counts.
  - rewrite handle_voice_stream_not_started by (right; eauto).
    rewrite Hstart. unfold new_calls. simpl. rewrite drop_app_length.
    unfold except_outcome, except_calls.
    destruct (is_ConnectionClosedOK e), (is_Exception e); simpl;
      solve_counts.
Qed.

(** X6.  The three steps of the cleanup go together: in every run the
    sentinel is put on the queue, the consumer task cancelled and
    [finish] called the same number of times, at most once, and only in a
    run in which the handler returns.  A started session that ends
    without them has created its consumer task and never cancels it. *)
Theorem cleanup_all_or_nothing
    (env : Env) (websocket : WebSocket) (inbox : list (res Message)) (s : state) :
  let r := handle_voice_stream env websocket inbox s in
  let d := new_calls s (snd r) in
  count_calls is_sentinel_put d = count_calls is_finish d
  /\ count_calls (is_cancel_of SendTask) d = count_calls is_finish d
  /\ (count_calls is_finish d <= 1)%nat
  /\ (count_calls is_finish d = 1%nat -> fst r = Return tt)
  /\ (deepgram_start env = Ok true -> fst r <> Suspended ->
      count_calls is_finish d = 0%nat ->
      count_calls (is_create_of SendTask) d = 1%nat
      /\ count_calls (is_cancel_of SendTask) d = 0%nat).
Proof.
  simpl. destruct (deepgram_start env) as [[|]|e] eqn:Hstart.
  - destruct (handle_voice_stream_new_calls env websocket inbox s Hstart)
      as [d [Hf [_ [Hout Hcalls]]]].
    destruct (relay_calls_counts d Hf) as [Hs [Hfin [Hcancel Hcreate]]].
    rewrite Hout, Hcalls, !count_calls_app, Hs, Hfin, Hcancel, Hcreate.
    destruct (fst (relay_loop env inbox (started websocket s))) as [[]|x|].
    + solve_counts.
    + rewrite !count_calls_app. unfold except_outcome, except_calls.
      destruct (is_ConnectionClosedOK x), (is_Exception x); simpl;
        solve_counts.
    + solve_counts.
  - rewrite handle_voice_stream_not_started by (left; exact Hstart).
    rewrite Hstart. unfold new_calls. simpl. rewrite drop_app_length.
    solve_counts.
  - rewrite handle_voice_stream_not_started by (right; eauto).
    rewrite Hstart. unfold new_calls. simpl. rewrite drop_app_length.
    unfold except_outcome, except_calls.
    destruct (is_ConnectionClosedOK e), (is_Exception e); simpl;
      solve_counts.
Qed.

(** X7.  How the handler leaves when [websocket.receive()] raises while it
    waits.  A [ConnectionClosedOK] is reported as information and the
    handler returns; any other exception that derives from [Exception] is
    reported as an error and the handler returns; a cancellation is not
    reported and goes on to the caller.  In the three cases the [finally]
    block runs, and nothing is forwarded or sent any more. *)
Theorem receive_failure_ends_the_handler
    (env : Env) (websocket : WebSocket) (pre more : list (res Message))
    (e : exn) (s : state) :
  fst (handle_voice_stream env websocket pre s) = Suspended ->
  let before := snd (handle_voice_stream env websocket pre s) in
  let r := handle_voice_stream env websocket (pre ++ Err e :: more) s in
  (e = ConnectionClosedOK ->
   fst r = Return tt
   /\ new_calls before (snd r)
      = Log INFO "Client connection closed normally." :: finally_calls)
  /\ (is_Exception e = true -> e <> ConnectionClosedOK ->
      fst r = Return tt
      /\ new_calls before (snd r) = Log ERROR "Voice stream error: {e}" :: finally_calls)
  /\ (e = CancelledError ->
      fst r = Raise CancelledError /\ new_calls before (snd r) = finally_calls).
Proof.
  intros Hwait. simpl.
  destruct (handle_voice_stream_resume env websocket pre (Err e :: more) s Hwait)
    as [_ [[d [_ Hbefore]] Hrun]].
  rewrite Hrun, Hbefore. simpl. step. unfold conclude.
  rewrite new_calls_add_calls. cbn [fst snd].
  rewrite new_calls_started_ended.
  unfold except_outcome, except_calls.
  split; [|split].
  - intros ->. split; reflexivity.
  - intros Hx Hne. rewrite Hx.
    destruct e; simpl; try (split; reflexivity); try discriminate.
    now contradiction Hne.
  - intros ->. split; reflexivity.
Qed.

Lemma receive_failure_ends_the_handler_witness :
  fst (handle_voice_stream reference_env client [audio_frame [Byte.x01]] idle) = Suspended
  /\ (is_Exception RuntimeError = true -> RuntimeError <> ConnectionClosedOK ->
      fst (handle_voice_stream reference_env client
             ([audio_frame [Byte.x01]] ++ Err RuntimeError :: [audio_frame [Byte.x02]]) idle)
      = Return tt
      /\ new_calls
           (snd (handle_voice_stream reference_env client [audio_frame [Byte.x01]] idle))
           (snd (handle_voice_stream reference_env client
                   ([audio_frame [Byte.x01]] ++ Err RuntimeError :: [audio_frame [Byte.x02]])
                   idle))
         = Log ERROR "Voice stream error: {e}" :: finally_calls).
Proof.
  split; [reflexivity|].
  apply (receive_failure_ends_the_handler reference_env client
           [audio_frame [Byte.x01]] [audio_frame [Byte.x02]] RuntimeError idle).
  reflexivity.
Defined.

Lemma handle_voice_stream_active_connections
    (env : Env) (websocket : WebSocket) (inbox : list (res Message)) (s : state) :
  active_connections (snd (handle_voice_stream env websocket inbox s))
  = match fst (handle_voice_stream env websocket inbox s) with
    | Suspended => <[py_id websocket := websocket]> (active_connections s)
    | _ => delete (py_id websocket) (active_connections s)
    end.
Proof.
  destruct (deepgram_start env) as [[|]|e] eqn:Hstart.
  - rewrite handle_voice_stream_conclude by exact Hstart.
    destruct (relay_loop_appends env inbox (started websocket s)) as [d [Hd _]].
    destruct (relay_loop env inbox (started websocket s)) as [[[]|e|] s']; simpl in *.
    + reflexivity.
    + unfold except_outcome. destruct (_ || _); reflexivity.
    + subst s'. reflexivity.
  - rewrite handle_voice_stream_not_started by (left; exact Hstart).
    rewrite Hstart. reflexivity.
  - rewrite handle_voice_stream_not_started by (right; eauto).
    rewrite Hstart. simpl. unfold except_outcome. destruct (_ || _); reflexivity.
Qed.

(** X8.  What [get_connection_stats] reports around a session whose
    socket was not registered before: while the handler waits in its
    loop, one connection more and the socket's id among the ids; once the
    handler has returned or raised, exactly what it reported before the
    session.  The count is always the number of ids, and no id is listed
    twice. *)
Theorem connection_stats_around_a_session
    (env : Env) (websocket : WebSocket) (inbox : list (res Message)) (s : state) :
  active_connections s !! py_id websocket = None ->
  let r := handle_voice_stream env websocket inbox s in
  let stats_of (x : state) := fst (get_connection_stats x) in
  (forall x st, stats_of x = Return st ->
     stats_active_connections st = length (stats_connection_ids st)
     /\ NoDup (stats_connection_ids st))
  /\ snd (get_connection_stats (snd r)) = snd r
  /\ match fst r with
     | Suspended =>
         exists st, stats_of (snd r) = Return st
           /\ stats_active_connections st = S (size (active_connections s))
           /\ py_id websocket ∈ stats_connection_ids st
     | _ => stats_of (snd r) = stats_of s
     end.
Proof.
  intros Hfresh. simpl. split; [|split; [reflexivity|]].
  - intros x st [= <-]. simpl. split.
    + now rewrite length_fmap, length_map_to_list.
    + apply NoDup_fst_map_to_list.
  - pose proof (handle_voice_stream_active_connections env websocket inbox s) as H.
    simpl in H. unfold get_connection_stats.
    destruct (fst (handle_voice_stream env websocket inbox s)) as [[]|e|];
      rewrite H.
    + rewrite delete_id by exact Hfresh. reflexivity.
    + rewrite delete_id by exact Hfresh. reflexivity.
    + eexists. split; [reflexivity|]. simpl. split.
      * now apply map_size_insert_None.
      * apply list_elem_of_fmap. exists (py_id websocket, websocket).
        split; [reflexivity|]. apply elem_of_map_to_list. apply lookup_insert_eq.
Qed.

Lemma connection_stats_around_a_session_witness :
  active_connections idle !! py_id client = None
  /\ fst (get_connection_stats
            (snd (handle_voice_stream reference_env client
                    [audio_frame [Byte.x01]; disconnect] idle)))
     = fst (get_connection_stats idle).
Proof.
  split; [reflexivity|].
  apply (connection_stats_around_a_session reference_env client
           [audio_frame [Byte.x01]; disconnect] idle).
  reflexivity.
Defined.

(* ===================================================================== *)
(** ** Further properties of the consumer                                 *)
(* ===================================================================== *)

(** What [process_deepgram_message] does depends on the object and on the
    client socket only: it adds its calls to the state it is run in. *)
Lemma process_deepgram_message_uniform
    (env : Env) (data : ProviderObject) (s : state) :
  process_deepgram_message env data s
  = (fst (process_deepgram_message env data idle),
     add_calls (calls (snd (process_deepgram_message env data idle))) s).
Proof.
  unfold process_deepgram_message, try_except, send_json. step.
  destruct (attr_channel data) as [[channel|]|]; step;
    try destruct (alternatives channel) as [|alt alts]; step;
    try destruct (strip (transcript alt)) as [|c r];
    crunch; flatten_calls; reflexivity.
Qed.

Lemma process_deepgram_message_outcome (env : Env) (data : ProviderObject) :
  (send_json_result env = Ok tt ->
   fst (process_deepgram_message env data idle) = Return tt)
  /\ (forall e, send_json_result env = Err e -> is_Exception e = true ->
      fst (process_deepgram_message env data idle) = Return tt).
Proof.
  split.
  - intros Hsend.
    unfold process_deepgram_message, try_except, send_json. step.
    rewrite Hsend.
    destruct (attr_channel data) as [[channel|]|]; step;
      try destruct (alternatives channel) as [|alt alts]; step;
      try destruct (strip (transcript alt)) as [|c r];
      crunch; reflexivity.
  - intros e Hsend Hx.
    unfold process_deepgram_message, try_except, send_json. step.
    rewrite Hsend.
    destruct (attr_channel data) as [[channel|]|]; step;
      try destruct (alternatives channel) as [|alt alts]; step;
      try destruct (strip (transcript alt)) as [|c r];
      step; rewrite ?Hx; crunch; try discriminate Hx; reflexivity.
Qed.

(** X9.  [process_deepgram_message] keeps failures to itself: whatever the
    object and whatever [send_json] does, it raises nothing but a
    cancellation raised by [send_json]; when a send fails with an
    exception, the failure is logged as an error and the function
    returns.  It changes nothing in the session but the record of
    calls. *)
Theorem process_deepgram_message_contains_failures
    (env : Env) (data : ProviderObject) (s : state) :
  let r := process_deepgram_message env data s in
  let d := new_calls s (snd r) in
  (forall e, fst r = Raise e ->
     e = CancelledError /\ send_json_result env = Err CancelledError)
  /\ (forall e, send_json_result env = Err e -> is_Exception e = true ->
      fst r = Return tt
      /\ (sent d <> [] -> In (Log ERROR "Error processing Deepgram message: {e}") d))
  /\ (send_json_result env = Ok tt -> fst r = Return tt)
  /\ snd r = add_calls d s.
Proof.
  simpl. rewrite (process_deepgram_message_uniform env data s).
  cbn [fst snd]. rewrite new_calls_add_calls.
  split; [|split; [|split; [|reflexivity]]].
  - intros e.
    unfold process_deepgram_message, try_except, send_json. step.
    destruct (attr_channel data) as [[channel|]|]; step;
      try destruct (alternatives channel) as [|alt alts]; step;
      try destruct (strip (transcript alt)) as [|c r];
      step;
      destruct (send_json_result env) as [[]|x] eqn:Hsend; try destruct x;
      crunch; intros H;
      first [discriminate H | injection H as <-; split; reflexivity].
  - intros e Hsend Hx.
    unfold process_deepgram_message, try_except, send_json. step.
    rewrite Hsend. 
    destruct (attr_channel data) as [[channel|]|]; step;
      try destruct (alternatives channel) as [|alt alts]; step;
      try destruct (strip (transcript alt)) as [|c r];
      step; rewrite ?Hx; crunch; try discriminate Hx;
      (split; [reflexivity|]); intros Hsent; simpl;
      first [now contradiction Hsent | tauto].
  - intros Hsend.
    unfold process_deepgram_message, try_except, send_json. step.
    rewrite Hsend.
    destruct (attr_channel data) as [[channel|]|]; step;
      try destruct (alternatives channel) as [|alt alts]; step;
      try destruct (strip (transcript alt)) as [|c r];
      crunch; reflexivity.
Qed.

(** X10.  An object without a usable channel is turned into a message by
    its type alone: [UtteranceEnd] gives the one message
    [utterance_end], [SpeechFinal] the one message [speech_final], any
    other type or no type gives nothing. *)
Theorem special_types_map_one_to_one
    (env : Env) (data : ProviderObject) (s : state) :
  has_channel data = false ->
  sent (new_calls s (snd (process_deepgram_message env data s)))
  = if type_is data "UtteranceEnd"
    then [[("type"%string, VStr (str "utterance_end"));
           ("message"%string, VStr (str "Utterance ended"))]]
    else if type_is data "SpeechFinal"
    then [[("type"%string, VStr (str "speech_final"));
           ("message"%string, VStr (str "Speech segment completed"))]]
    else [].
Proof.
  unfold has_channel, type_is. intros Hch.
  rewrite (process_deepgram_message_uniform env data s). cbn [fst snd].
  rewrite new_calls_add_calls.
  unfold process_deepgram_message, try_except, send_json. step.
  destruct (attr_channel data) as [[channel|]|]; try discriminate; step;
    crunch; reflexivity.
Qed.

Lemma special_types_map_one_to_one_witness :
  has_channel {| attr_channel := Some None; attr_is_final := None; attr_metadata := None;
                 attr_start := None; attr_type := Some (VStr (str "UtteranceEnd")) |} = false
  /\ sent (new_calls idle
             (snd (process_deepgram_message reference_env
                     {| attr_channel := Some None; attr_is_final := None;
                        attr_metadata := None; attr_start := None;
                        attr_type := Some (VStr (str "UtteranceEnd")) |} idle)))
     = [[("type"%string, VStr (str "utterance_end"));
         ("message"%string, VStr (str "Utterance ended"))]].
Proof.
  split; [reflexivity|].
  apply (special_types_map_one_to_one reference_env
           {| attr_channel := Some None; attr_is_final := None; attr_metadata := None;
              attr_start := None; attr_type := Some (VStr (str "UtteranceEnd")) |} idle).
  reflexivity.
Defined.

(** X11.  For one object the consumer sends at most two messages, and when
    it sends two the first is the transcript and the second the
    [utterance_end] or [speech_final]; once a send has failed it sends
    nothing more for that object. *)
Theorem at_most_two_messages_per_object
    (env : Env) (data : ProviderObject) (s : state) :
  let out := sent (new_calls s (snd (process_deepgram_message env data s))) in
  (length out <= 2)%nat
  /\ (forall m1 m2, out = [m1; m2] ->
        has_type "transcript" m1 = true
        /\ has_type "utterance_end" m2 || has_type "speech_final" m2 = true)
  /\ (forall e, send_json_result env = Err e -> (length out <= 1)%nat).
Proof.
  simpl. rewrite (process_deepgram_message_uniform env data s). cbn [fst snd].
  rewrite new_calls_add_calls.
  unfold process_deepgram_message, try_except, send_json. step.
  destruct (attr_channel data) as [[channel|]|]; step;
    try destruct (alternatives channel) as [|alt alts]; step;
    try destruct (strip (transcript alt)) as [|c r];
    step;
    destruct (send_json_result env) as [[]|x] eqn:Hsend;
    crunch;
    (split; [lia|]); (split; [intros m1 m2 H; try discriminate H;
                              injection H as <- <-; split; reflexivity
                             |intros e H; first [discriminate H | lia]]).
Qed.

Section Consumer.

Variable env : Env.

(** [send_json] does not meet a cancellation. *)
Hypothesis send_json_not_cancelled :
  forall e, send_json_result env = Err e -> is_Exception e = true.

Lemma process_deepgram_message_returns (data : ProviderObject) (s : state) :
  process_deepgram_message env data s
  = (Return tt, add_calls (calls (snd (process_deepgram_message env data idle))) s).
Proof.
  rewrite (process_deepgram_message_uniform env data s). f_equal.
  destruct (process_deepgram_message_outcome env data) as [H1 H2].
  destruct (send_json_result env) as [[]|e] eqn:Hsend.
  - now apply H1.
  - now apply (H2 e), send_json_not_cancelled.
Qed.

Lemma sent_app (a b : list call) : sent (a ++ b) = sent a ++ sent b.
Proof.
  induction a as [|c a IH]; simpl; [reflexivity|].
  destruct c; simpl; rewrite IH; reflexivity.
Qed.

Lemma sent_flat_map_calls (objs : list ProviderObject) :
  sent (flat_map (fun o => calls (snd (process_deepgram_message env o idle))) objs)
  = flat_map (messages_for env) objs.
Proof.
  induction objs as [|o objs IH]; simpl; [reflexivity|].
  now rewrite sent_app, IH.
Qed.

(** The consumer on a queue that starts with the objects [objs]. *)
Lemma send_task_from_objects (objs : list ProviderObject) (tail : list item) (s : state) :
  send_task_from env (map Some objs ++ tail) s
  = send_task_from env tail
      (add_calls
         (flat_map (fun o => calls (snd (process_deepgram_message env o idle))) objs)
         (match objs with
          | [] => s
          | _ :: _ => set_message_queue (fun _ => tail) s
          end)).
Proof.
  revert s. induction objs as [|o objs IH]; intros s.
  - simpl. now rewrite add_calls_nil.
  - simpl. unfold bind at 1. unfold modify at 1. unfold bind at 1.
    rewrite process_deepgram_message_returns, IH. f_equal.
    apply state_eq; destruct objs; simpl; try reflexivity;
      now rewrite <- app_assoc.
Qed.

End Consumer.

(** X12.  The consumer handles the queue in order: it sends the messages
    of the objects that precede the first sentinel, object by object;
    when it pops the sentinel it returns and leaves what is behind it on
    the queue; when the queue runs empty it waits. *)
Theorem send_task_drains_in_order
    (env : Env) (objs : list ProviderObject) (tail : list item) (s : state) :
  (forall e, send_json_result env = Err e -> is_Exception e = true) ->
  message_queue s = map Some objs ++ tail ->
  let r := send_task env s in
  (tail = [] ->
   fst r = Suspended
   /\ message_queue (snd r) = []
   /\ sent (new_calls s (snd r)) = flat_map (messages_for env) objs)
  /\ (forall rest, tail = None :: rest ->
      fst r = Return tt
      /\ message_queue (snd r) = rest
      /\ sent (new_calls s (snd r)) = flat_map (messages_for env) objs).
Proof.
  intros Hsend Hqueue. simpl. unfold send_task.
  rewrite Hqueue, (send_task_from_objects env Hsend).
  assert (Hcalls : calls (match objs with
                          | [] => s
                          | _ :: _ => set_message_queue (fun _ => tail) s
                          end) = calls s) by (destruct objs; reflexivity).
  split.
  - intros ->. cbn [send_task_from]. unfold suspend. cbn [fst snd].
    unfold new_calls. cbn [calls add_calls]. rewrite Hcalls, drop_app_length.
    rewrite sent_flat_map_calls. split; [reflexivity|]. split; [|reflexivity].
    destruct objs; [exact Hqueue | reflexivity].
  - intros rest ->. cbn [send_task_from]. unfold bind, modify, ret. cbn [fst snd].
    unfold new_calls.
    match goal with
    | |- context [calls (set_message_queue ?f (add_calls ?d ?x))] =>
        change (calls (set_message_queue f (add_calls d x))) with (calls x ++ d)
    end.
    rewrite Hcalls, drop_app_length.
    rewrite sent_flat_map_calls. now repeat split.
Qed.

Lemma send_task_drains_in_order_witness :
  ((forall e, send_json_result reference_env = Err e -> is_Exception e = true)
   /\ message_queue (set_message_queue (fun _ => [Some interim_ok; None; Some interim_hello]) idle)
      = map Some [interim_ok] ++ None :: [Some interim_hello])
  /\ (forall rest, None :: [Some interim_hello] = None :: rest ->
      fst (send_task reference_env
             (set_message_queue (fun _ => [Some interim_ok; None; Some interim_hello]) idle))
      = Return tt
      /\ message_queue
           (snd (send_task reference_env
                   (set_message_queue
                      (fun _ => [Some interim_ok; None; Some interim_hello]) idle)))
         = rest
      /\ sent (new_calls
                 (set_message_queue (fun _ => [Some interim_ok; None; Some interim_hello]) idle)
                 (snd (send_task reference_env
                         (set_message_queue
                            (fun _ => [Some interim_ok; None; Some interim_hello]) idle))))
         = flat_map (messages_for reference_env) [interim_ok]).
Proof.
  split; [split; [intros e H; discriminate H | reflexivity]|].
  apply (send_task_drains_in_order reference_env [interim_ok] (None :: [Some interim_hello])
           (set_message_queue (fun _ => [Some interim_ok; None; Some interim_hello]) idle)).
  - intros e H; discriminate H.
  - reflexivity.
Defined.

Lemma deliver_all_run (ds : list delivery) (s : state) :
  exists d,
    deliver_all ds s
    = (Return tt,
       set_message_queue (fun q => q ++ map (fun x => Some (delivered x)) ds)
         (add_calls d s))
    /\ sent d = [].
Proof.
  revert s. induction ds as [|x ds IH]; intros s.
  - exists []. split; [|reflexivity]. unfold deliver_all, ret. f_equal.
    apply state_eq; simpl; try reflexivity; now rewrite app_nil_r.
  - simpl. unfold bind at 1.
    destruct x as [result|error].
    + simpl. unfold on_message, try_except, queue_put. step.
      match goal with
      | |- context [deliver_all ds ?s1] => destruct (IH s1) as [d [Hd Hs]]; rewrite Hd
      end. exists (QueuePut (Some result) :: d). split; [|exact Hs].
      f_equal. apply state_eq; simpl; try reflexivity; now rewrite <- app_assoc.
    + simpl. unfold on_error, queue_put. step.
      match goal with
      | |- context [deliver_all ds ?s1] => destruct (IH s1) as [d [Hd Hs]]; rewrite Hd
      end.
      exists (Log ERROR "Deepgram error: {error}" :: QueuePut (Some error) :: d).
      split; [|exact Hs].
      f_equal. apply state_eq; simpl; try reflexivity; now rewrite <- !app_assoc.
Qed.

(** X13.  What the provider delivers reaches the client in the order of
    delivery.  The two registered handlers only queue what they are given
    (they send nothing themselves); the consumer, started on the queue
    they filled, sends the messages of the delivered objects one object
    after the other in that order, results and error reports alike, and
    then waits on the empty queue. *)
Theorem deliveries_reach_client_in_order
    (env : Env) (ds : list delivery) (s : state) :
  (forall e, send_json_result env = Err e -> is_Exception e = true) ->
  message_queue s = [] ->
  let queued := snd (deliver_all ds s) in
  let r := send_task env queued in
  fst (deliver_all ds s) = Return tt
  /\ message_queue queued = map (fun x => Some (delivered x)) ds
  /\ sent (new_calls s queued) = []
  /\ fst r = Suspended
  /\ message_queue (snd r) = []
  /\ sent (new_calls queued (snd r))
     = flat_map (fun x => messages_for env (delivered x)) ds.
Proof.
  intros Hsend Hempty. simpl.
  destruct (deliver_all_run ds s) as [d [Hrun Hsent]].
  rewrite Hrun. cbn [fst snd].
  assert (Hq : message_queue
                 (set_message_queue (fun q => q ++ map (fun x => Some (delivered x)) ds)
                    (add_calls d s))
               = map Some (map delivered ds) ++ []).
  { simpl. rewrite Hempty, app_nil_r, map_map. reflexivity. }
  split; [reflexivity|]. split; [simpl; now rewrite Hempty|].
  split.
  { unfold new_calls. simpl. now rewrite drop_app_length. }
  unfold send_task. rewrite Hq, (send_task_from_objects env Hsend).
  cbn [send_task_from]. unfold suspend. cbn [fst snd].
  assert (Hcalls : forall x : state,
             calls (match map delivered ds with
                    | [] => x
                    | _ :: _ => set_message_queue (fun _ => []) x
                    end) = calls x)
    by (intros x; destruct (map delivered ds); reflexivity).
  split; [reflexivity|]. split.
  - destruct ds as [|x ds]; simpl; [now rewrite Hempty | reflexivity].
  - unfold new_calls. cbn [calls add_calls]. rewrite Hcalls, drop_app_length.
    rewrite sent_flat_map_calls. clear.
    induction ds as [|x ds IH]; simpl; [reflexivity | now rewrite IH].
Qed.

Lemma deliveries_reach_client_in_order_witness :
  ((forall e, send_json_result reference_env = Err e -> is_Exception e = true)
   /\ message_queue idle = [])
  /\ sent (new_calls
             (snd (deliver_all [Result interim_ok; Failure provider_error; Result interim_hello]
                     idle))
             (snd (send_task reference_env
                     (snd (deliver_all
                             [Result interim_ok; Failure provider_error; Result interim_hello]
                             idle)))))
     = flat_map (fun x => messages_for reference_env (delivered x))
         [Result interim_ok; Failure provider_error; Result interim_hello].
Proof.
  split; [split; [intros e H; discriminate H | reflexivity]|].
  apply (deliveries_reach_client_in_order reference_env
           [Result interim_ok; Failure provider_error; Result interim_hello] idle).
  - intros e H; discriminate H.
  - reflexivity.
Defined.

(* ===================================================================== *)
(** ** The keepalive task                                                 *)
(* ===================================================================== *)

Lemma keepalive_loop_pings (ticks : list tick) :
  length (filter is_keep_alive (fst (keepalive_loop ticks))) = S (completed_sleeps ticks).
Proof.
  induction ticks as [|[|e|e] rest IH]; simpl; try reflexivity.
  destruct (keepalive_loop rest) as [cs o]. simpl in *. f_equal. exact IH.
Qed.

Lemma keepalive_loop_first (ticks : list tick) :
  exists cs, fst (keepalive_loop ticks)
             = KeepaliveLog DEBUG "Sending keepalive to Deepgram." :: KeepAlive :: cs.
Proof.
  destruct ticks as [|[|e|e] rest]; simpl; eauto.
  destruct (keepalive_loop rest) as [cs o]. simpl. eauto.
Qed.

(** X14.  The keepalive task pings at once when it starts and then once
    after every sleep that completes: the number of [keep_alive] calls is
    one more than the number of completed sleeps, and the first two calls
    are the log line and the first ping. *)
Theorem keepalive_pings_once_per_sleep (ticks : list tick) :
  length (filter is_keep_alive (fst (keepalive_task ticks))) = S (completed_sleeps ticks)
  /\ exists cs, fst (keepalive_task ticks)
                = KeepaliveLog DEBUG "Sending keepalive to Deepgram." :: KeepAlive :: cs.
Proof.
  unfold keepalive_task.
  pose proof (keepalive_loop_pings ticks) as Hn.
  destruct (keepalive_loop_first ticks) as [cs Hcs].
  destruct (keepalive_loop ticks) as [calls0 [[]|e|]]; simpl in *;
    try (split; [exact Hn | eauto]).
  destruct (is_CancelledError e); [split; [exact Hn | eauto]|].
  destruct (is_Exception e); simpl; [|split; [exact Hn | eauto]].
  split.
  - rewrite filter_app, length_app, Hn. simpl. lia.
  - subst calls0. simpl. eauto.
Qed.

Lemma keepalive_loop_slept (pre rest : list tick) :
  forallb is_slept pre = true ->
  exists cs,
    fst (keepalive_loop pre)
    = cs ++ [KeepaliveLog DEBUG "Sending keepalive to Deepgram."; KeepAlive; Sleep]
    /\ keepalive_loop (pre ++ rest)
       = (cs ++ fst (keepalive_loop rest), snd (keepalive_loop rest)).
Proof.
  induction pre as [|t pre IH]; simpl.
  - intros _. exists []. split; [reflexivity|]. now destruct (keepalive_loop rest).
  - destruct t; try discriminate. simpl. intros Hpre.
    destruct (IH Hpre) as [cs [H1 H2]].
    rewrite H2. destruct (keepalive_loop pre) as [c0 o0]. simpl in *. subst c0.
    exists (KeepaliveLog DEBUG "Sending keepalive to Deepgram." :: KeepAlive :: Sleep :: cs).
    split; reflexivity.
Qed.

(** X15.  The keepalive task never fails, and a cancellation ends it in
    silence.  Whatever [keep_alive] and [sleep] do, the task returns or
    is still waiting.  Cancelled in a sleep, it returns having made
    exactly the calls it had made when it began that sleep: no ping and
    no log line follows the cancellation. *)
Theorem keepalive_task_ends_quietly_when_cancelled
    (pre more : list tick) :
  forallb is_slept pre = true ->
  (forall ticks e, snd (keepalive_task ticks) <> Raise e)
  /\ snd (keepalive_task pre) = Suspended
  /\ keepalive_task (pre ++ SleepRaised CancelledError :: more)
     = (fst (keepalive_task pre), Return tt).
Proof.
  intros Hpre. split; [|split].
  - intros ticks e. unfold keepalive_task.
    destruct (keepalive_loop ticks) as [cs [[]|x|]]; simpl; try discriminate.
    destruct x; simpl; discriminate.
  - destruct (keepalive_loop_slept pre [] Hpre) as [cs [_ H]].
    rewrite app_nil_r in H. unfold keepalive_task. rewrite H. reflexivity.
  - destruct (keepalive_loop_slept pre (SleepRaised CancelledError :: more) Hpre)
      as [cs [H1 H2]].
    destruct (keepalive_loop_slept pre [] Hpre) as [cs' [H1' H2']].
    rewrite app_nil_r in H2'.
    unfold keepalive_task. rewrite H2, H2'. simpl.
    rewrite H1 in H1'. apply app_inv_tail in H1'. now subst cs'.
Qed.

Lemma keepalive_task_ends_quietly_when_cancelled_witness :
  forallb is_slept [Slept; Slept] = true
  /\ keepalive_task ([Slept; Slept] ++ SleepRaised CancelledError :: [Slept])
     = (fst (keepalive_task [Slept; Slept]), Return tt).
Proof.
  split; [reflexivity|].
  apply (keepalive_task_ends_quietly_when_cancelled [Slept; Slept] [Slept]).
  reflexivity.
Defined.

(* ===================================================================== *)
(** ** Transcription of a recorded file                                   *)
(* ===================================================================== *)

(** X16.  [transcribe_audio_file] does not hide a failure: when the file
    cannot be opened, or the provider call raises, the exception is
    logged once as an error and raised again to the caller. *)
Theorem transcription_failure_is_logged_and_raised
    (world : FileEnv) (e : exn) (s : state) :
  open_result world = Err e
  \/ (open_result world = Ok tt /\ transcribe_file_result world = Err e) ->
  is_Exception e = true ->
  transcribe_audio_file world s
  = (Raise e, add_calls [Log ERROR "File transcription error: {e}"] s).
Proof.
  intros [Hopen | [Hopen Hcall]] Hx;
    unfold transcribe_audio_file, try_except; step;
    rewrite Hopen; step; rewrite ?Hcall; step; rewrite Hx; reflexivity.
Qed.

Lemma transcription_failure_is_logged_and_raised_witness :
  (open_result {| open_result := Err RuntimeError; transcribe_file_result := Ok None |}
   = Err RuntimeError
   \/ (open_result {| open_result := Err RuntimeError; transcribe_file_result := Ok None |}
       = Ok tt
       /\ transcribe_file_result
            {| open_result := Err RuntimeError; transcribe_file_result := Ok None |}
          = Err RuntimeError))
  /\ transcribe_audio_file
       {| open_result := Err RuntimeError; transcribe_file_result := Ok None |} idle
     = (Raise RuntimeError, add_calls [Log ERROR "File transcription error: {e}"] idle).
Proof.
  split; [left; reflexivity|].
  apply (transcription_failure_is_logged_and_raised
           {| open_result := Err RuntimeError; transcribe_file_result := Ok None |}
           RuntimeError idle);
    [left; reflexivity | reflexivity].
Defined.

(** X17.  Of a provider answer, [transcribe_audio_file] reads the first
    alternative of the first channel and nothing else: the transcript and
    the confidence are those of that alternative, the empty string and
    0.0 standing in for a missing key; further channels and alternatives
    do not count, the answer is handed back as [full_response], and
    nothing is logged. *)
Theorem transcription_reads_first_alternative
    (world : FileEnv) (response : PreResponse) (results : PreResults)
    (channel0 : PreChannel) (channels : list PreChannel)
    (alternative0 : PreAlternative) (alternatives : list PreAlternative) (s : state) :
  open_result world = Ok tt ->
  transcribe_file_result world = Ok (Some response) ->
  response_results response = Some results ->
  results_channels results = Some (channel0 :: channels) ->
  channel_alternatives channel0 = Some (alternative0 :: alternatives) ->
  transcribe_audio_file world s
  = (Return {| result_transcript := getattr (alt_transcript alternative0) (VStr []);
               result_confidence := getattr (alt_confidence alternative0) (VFloat 0);
               result_full_response := Some response |},
     s).
Proof.
  intros Hopen Hcall Hres Hch Halt.
  unfold transcribe_audio_file, try_except. step.
  rewrite Hopen. step. rewrite Hcall. step.
  rewrite Hres, Hch. simpl. rewrite Halt. reflexivity.
Qed.

Lemma transcription_reads_first_alternative_witness :
  (open_result
     {| open_result := Ok tt;
        transcribe_file_result :=
          Ok (Some {| response_results :=
                        Some {| results_channels :=
                                  Some [{| channel_alternatives :=
                                             Some [{| alt_transcript := Some (VStr (str "hi"));
                                                      alt_confidence := None |}] |}] |} |}) |}
   = Ok tt)
  /\ transcribe_audio_file
       {| open_result := Ok tt;
          transcribe_file_result :=
            Ok (Some {| response_results :=
                          Some {| results_channels :=
                                    Some [{| channel_alternatives :=
                                               Some [{| alt_transcript := Some (VStr (str "hi"));
                                                        alt_confidence := None |}] |}] |} |}) |}
       idle
     = (Return {| result_transcript := VStr (str "hi");
                  result_confidence := VFloat 0;
                  result_full_response :=
                    Some {| response_results :=
                              Some {| results_channels :=
                                        Some [{| channel_alternatives :=
                                                   Some [{| alt_transcript :=
                                                              Some (VStr (str "hi"));
                                                            alt_confidence := None |}] |}] |} |} |},
        idle).
Proof.
  split; [reflexivity|].
  apply (transcription_reads_first_alternative
           {| open_result := Ok tt;
              transcribe_file_result :=
                Ok (Some {| response_results :=
                              Some {| results_channels :=
                                        Some [{| channel_alternatives :=
                                                   Some [{| alt_transcript :=
                                                              Some (VStr (str "hi"));
                                                            alt_confidence := None |}] |}] |} |}) |}
           {| response_results :=
                Some {| results_channels :=
                          Some [{| channel_alternatives :=
                                     Some [{| alt_transcript := Some (VStr (str "hi"));
                                              alt_confidence := None |}] |}] |} |}
           {| results_channels :=
                Some [{| channel_alternatives :=
                           Some [{| alt_transcript := Some (VStr (str "hi"));
                                    alt_confidence := None |}] |}] |}
           {| channel_alternatives :=
                Some [{| alt_transcript := Some (VStr (str "hi")); alt_confidence := None |}] |}
           []
           {| alt_transcript := Some (VStr (str "hi")); alt_confidence := None |}
           [] idle);
    reflexivity.
Defined.

(** X18.  When the provider's answer has nothing to read (no answer, no
    results, no channel, or a first channel without alternatives),
    [transcribe_audio_file] still returns: an empty transcript with
    confidence 0.0, beside the answer itself. *)
Theorem transcription_of_empty_answer
    (world : FileEnv) (response : option PreResponse) (s : state) :
  open_result world = Ok tt ->
  transcribe_file_result world = Ok response ->
  response = None
  \/ (exists r, response = Some r
        /\ (response_results r = None
            \/ exists results, response_results r = Some results
                 /\ (default [] (results_channels results) = []
                     \/ exists channel0 channels,
                          results_channels results = Some (channel0 :: channels)
                          /\ default [] (channel_alternatives channel0) = []))) ->
  transcribe_audio_file world s
  = (Return {| result_transcript := VStr [];
               result_confidence := VFloat 0;
               result_full_response := response |},
     s).
Proof.
  intros Hopen Hcall Hempty.
  unfold transcribe_audio_file, try_except. step.
  rewrite Hopen. step. rewrite Hcall. step.
  destruct Hempty as [-> | [r [-> [Hres | [results [Hres [Hch | [c0 [cs [Hch Halt]]]]]]]]]];
    try reflexivity; rewrite Hres; try reflexivity.
  - destruct (results_channels results) as [chs|]; simpl in *; [subst chs|]; reflexivity.
  - rewrite Hch. simpl.
    destruct (channel_alternatives c0) as [alts|]; simpl in *; [subst alts|]; reflexivity.
Qed.

Lemma transcription_of_empty_answer_witness :
  (open_result
     {| open_result := Ok tt;
        transcribe_file_result :=
          Ok (Some {| response_results := Some {| results_channels := Some [] |} |}) |}
   = Ok tt)
  /\ transcribe_audio_file
       {| open_result := Ok tt;
          transcribe_file_result :=
            Ok (Some {| response_results := Some {| results_channels := Some [] |} |}) |}
       idle
     = (Return {| result_transcript := VStr [];
                  result_confidence := VFloat 0;
                  result_full_response :=
                    Some {| response_results := Some {| results_channels := Some [] |} |} |},
        idle).
Proof.
  split; [reflexivity|].
  apply (transcription_of_empty_answer
           {| open_result := Ok tt;
              transcribe_file_result :=
                Ok (Some {| response_results := Some {| results_channels := Some [] |} |}) |}
           (Some {| response_results := Some {| results_channels := Some [] |} |}) idle);
    try reflexivity.
  right. eexists. split; [reflexivity|]. right. eexists. split; [reflexivity|].
  left. reflexivity.
Defined.

(* ===================================================================== *)
(** ** The endpoint                                                       *)
(* ===================================================================== *)

Lemma handle_voice_stream_raise
    (env : Env) (websocket : WebSocket) (inbox : list (res Message)) (s : state) (e : exn) :
  fst (handle_voice_stream env websocket inbox s) = Raise e -> is_Exception e = false.
Proof.
  assert (Hout : forall x, except_outcome x = Raise e -> is_Exception e = false).
  { intros x. unfold except_outcome. destruct x; simpl; try discriminate.
    now intros [= <-]. }
  destruct (deepgram_start env) as [[|]|x] eqn:Hstart.
  - rewrite handle_voice_stream_conclude by exact Hstart.
    destruct (relay_loop env inbox (started websocket s)) as [[[]|x|] s']; simpl;
      try discriminate. apply Hout.
  - rewrite handle_voice_stream_not_started by (left; exact Hstart).
    rewrite Hstart. discriminate.
  - rewrite handle_voice_stream_not_started by (right; eauto).
    rewrite Hstart. apply Hout.
Qed.

Lemma handle_voice_stream_calls
    (env : Env) (websocket : WebSocket) (inbox : list (res Message)) (s : state) :
  calls (snd (handle_voice_stream env websocket inbox s))
  = calls s ++ new_calls s (snd (handle_voice_stream env websocket inbox s)).
Proof.
  destruct (deepgram_start env) as [[|]|x] eqn:Hstart.
  - destruct (handle_voice_stream_started env websocket inbox s Hstart)
      as [d [_ [_ Hrun]]]. rewrite Hrun.
    destruct (fst (relay_loop env inbox (started websocket s))) as [[]|x|]; cbn [fst snd];
      rewrite ?new_calls_ended, ?new_calls_started; unfold ended, add_calls, started;
      cbn [calls]; now rewrite <- ?app_assoc.
  - rewrite handle_voice_stream_not_started by (left; exact Hstart).
    unfold new_calls. cbn [fst snd calls]. now rewrite drop_app_length.
  - rewrite handle_voice_stream_not_started by (right; eauto).
    unfold new_calls. cbn [fst snd calls]. now rewrite drop_app_length.
Qed.

Lemma handle_voice_stream_no_endpoint_error
    (env : Env) (websocket : WebSocket) (inbox : list (res Message)) (s : state) :
  count_calls is_endpoint_error (new_calls s (snd (handle_voice_stream env websocket inbox s)))
  = 0%nat.
Proof.
  assert (Hrelay : forall d, forallb is_relay_call d = true ->
                             count_calls is_endpoint_error d = 0%nat).
  { unfold count_calls. induction d as [|c d IH]; simpl; [reflexivity|].
    intros H. apply andb_true_iff in H as [Hc Hd].
    destruct c as [[]| | | | | | | | |]; simpl in *; try discriminate; now apply IH. }
  destruct (deepgram_start env) as [[|]|x] eqn:Hstart.
  - destruct (handle_voice_stream_new_calls env websocket inbox s Hstart)
      as [d [Hf [_ [_ Hcalls]]]].
    rewrite Hcalls, !count_calls_app, (Hrelay d Hf).
    destruct (fst (relay_loop env inbox (started websocket s))) as [[]|x|];
      try reflexivity.
    rewrite count_calls_app. unfold except_calls.
    destruct (is_ConnectionClosedOK x), (is_Exception x); reflexivity.
  - rewrite handle_voice_stream_not_started by (left; exact Hstart).
    rewrite Hstart. unfold new_calls. cbn [fst snd calls]. now rewrite drop_app_length.
  - rewrite handle_voice_stream_not_started by (right; eauto).
    rewrite Hstart. unfold new_calls. cbn [fst snd calls]. rewrite drop_app_length.
    unfold except_calls.
    destruct (is_ConnectionClosedOK x), (is_Exception x); reflexivity.
Qed.

(** X19.  Once the socket is accepted the endpoint is the handler: it
    logs the acceptance and runs [handle_voice_stream]; as no exception
    that derives from [Exception] comes out of the handler, the endpoint
    never reaches its own error report and never closes the socket,
    whatever happens in the session. *)
Theorem endpoint_never_closes_an_accepted_socket
    (env : Env) (sock : SocketEnv) (websocket : WebSocket)
    (inbox : list (res Message)) (s : state) :
  accept_result sock = Ok tt ->
  let session :=
    handle_voice_stream env websocket inbox
      (add_calls [Log INFO "WebSocket connection accepted, starting voice service..."] s) in
  websocket_voice_endpoint env sock websocket inbox s
  = (fst session, snd session, [WsAccept])
  /\ filter is_close (snd (websocket_voice_endpoint env sock websocket inbox s)) = []
  /\ count_calls is_endpoint_error
       (new_calls s (snd (fst (websocket_voice_endpoint env sock websocket inbox s)))) = 0%nat.
Proof.
  intros Haccept. simpl.
  set (s0 := add_calls [Log INFO "WebSocket connection accepted, starting voice service..."] s).
  assert (Hrun : websocket_voice_endpoint env sock websocket inbox s
                 = (fst (handle_voice_stream env websocket inbox s0),
                    snd (handle_voice_stream env websocket inbox s0),
                    [WsAccept])).
  { unfold websocket_voice_endpoint. rewrite Haccept. unfold bind at 1. unfold invoke at 1.
    fold s0.
    pose proof (handle_voice_stream_raise env websocket inbox s0) as Hraise.
    destruct (handle_voice_stream env websocket inbox s0) as [[[]|e|] s']; try reflexivity.
    unfold endpoint_except. now rewrite (Hraise e eq_refl). }
  rewrite Hrun. split; [reflexivity|]. split; [reflexivity|].
  cbn [fst snd]. unfold new_calls.
  rewrite (handle_voice_stream_calls env websocket inbox s0).
  unfold s0 at 1. cbn [calls add_calls].
  rewrite <- app_assoc, drop_app_length.
  rewrite (count_calls_app _ [_]).
  rewrite (handle_voice_stream_no_endpoint_error env websocket inbox s0). reflexivity.
Qed.

Lemma endpoint_never_closes_an_accepted_socket_witness :
  accept_result {| accept_result := Ok tt; client_connected := true; close_result := Ok tt |}
  = Ok tt
  /\ filter is_close
       (snd (websocket_voice_endpoint reference_env
               {| accept_result := Ok tt; client_connected := true; close_result := Ok tt |}
               client [text_frame (str "oops")] idle)) = [].
Proof.
  split; [reflexivity|].
  apply (endpoint_never_closes_an_accepted_socket reference_env
           {| accept_result := Ok tt; client_connected := true; close_result := Ok tt |}
           client [text_frame (str "oops")] idle).
  reflexivity.
Defined.

(** X20.  When [accept] itself fails with an exception, the endpoint logs
    the error and does not enter the handler: no connection is
    registered and nothing is called on the provider.  It closes the
    socket, with code 1000, exactly when the socket reports itself
    connected, and a failure of that close is logged and swallowed. *)
Theorem endpoint_accept_failure
    (env : Env) (sock : SocketEnv) (websocket : WebSocket)
    (inbox : list (res Message)) (s : state) (e : exn) :
  accept_result sock = Err e ->
  is_Exception e = true ->
  let r := websocket_voice_endpoint env sock websocket inbox s in
  let d := new_calls s (snd (fst r)) in
  active_connections (snd (fst r)) = active_connections s
  /\ filter is_provider_call d = []
  /\ snd r = WsAccept :: (if client_connected sock then [WsClose 1000] else [])
  /\ (exists rest, d = Log ERROR "WebSocket error: {e}" :: rest)
  /\ (forall close_error,
         client_connected sock = true ->
         close_result sock = Err close_error -> is_Exception close_error = true ->
         fst (fst r) = Return tt
         /\ d = [Log ERROR "WebSocket error: {e}";
                 Log ERROR "Error closing WebSocket: {close_error}"])
  /\ (client_connected sock = false \/ close_result sock = Ok tt ->
      fst (fst r) = Return tt /\ d = [Log ERROR "WebSocket error: {e}"]).
Proof.
  intros Haccept Hx. simpl.
  unfold websocket_voice_endpoint, endpoint_except. rewrite Haccept, Hx.
  destruct (client_connected sock) eqn:Hconn.
  - destruct (close_result sock) as [[]|ce] eqn:Hclose.
    + cbn [fst snd]. rewrite new_calls_add_calls.
      repeat split; try reflexivity; eauto; try discriminate.
    + destruct (is_Exception ce) eqn:Hce; cbn [fst snd];
        rewrite ?add_calls_app, new_calls_add_calls;
        repeat split; try reflexivity; eauto;
        try (match goal with H : _ \/ _ |- _ => destruct H; discriminate end);
        match goal with H : Err _ = Err _ |- _ => injection H as <-; congruence end.
  - cbn [fst snd]. rewrite new_calls_add_calls.
    repeat split; try reflexivity; eauto; discriminate.
Qed.

Lemma endpoint_accept_failure_witness :
  (accept_result {| accept_result := Err RuntimeError; client_connected := true;
                    close_result := Err RuntimeError |} = Err RuntimeError
   /\ is_Exception RuntimeError = true)
  /\ snd (websocket_voice_endpoint reference_env
            {| accept_result := Err RuntimeError; client_connected := true;
               close_result := Err RuntimeError |}
            client [audio_frame [Byte.x01]] idle)
     = WsAccept :: (if client_connected
                          {| accept_result := Err RuntimeError; client_connected := true;
                             close_result := Err RuntimeError |}
                    then [WsClose 1000] else []).
Proof.
  split; [split; reflexivity|].
  apply (endpoint_accept_failure reference_env
           {| accept_result := Err RuntimeError; client_connected := true;
              close_result := Err RuntimeError |}
           client [audio_frame [Byte.x01]] idle RuntimeError);
    reflexivity.
Defined.
